(** * CCC core: hasher, JSON-RPC client and Bitcoin-style signer

    A shallow embedding of three pieces of [packages/core/src]:

    - [hasher/index.ts]: the [Hasher] class and the free function [ckbHash];
    - [client/jsonRpc/index.ts]: [transform], [ClientJsonRpc.buildPayload],
      [ClientJsonRpc.buildSender], [ClientJsonRpc.send] and the
      [findCellsPagedNoCache] sender;
    - the [SignerBtc] class ([prepareTransaction], [signOnlyTransaction]).

    Wherever the TypeScript calls out of these files (the [blake2b]
    package, [fetch], [../../bytes], [../../num], [../../ckb], the wallet
    behind [signMessageRaw]) the callee is a [Variable] of the enclosing
    [Section]; the theorems then hold for every implementation of it, and
    each assumption made about one is an explicit premise. *)

From Stdlib Require Import ZArith QArith Qround List String Ascii Strings.Byte HexString Lia.
From stdpp Require Import gmap strings list pretty.

Import ListNotations.
Set Warnings "-register-all".
Local Open Scope string_scope.
Local Open Scope Z_scope.

(** ** Bytes *)

(** [Bytes] is a [Uint8Array]. A [Hex] value is the ["0x"]-prefixed
    rendering of a byte string; where the code only moves such a value
    around, it is identified with the bytes it denotes. *)
Definition Bytes := list byte.

(** Storing a number into a [Uint8Array] slot keeps it modulo 256. *)
Definition byte_of_Z (z : Z) : byte :=
  match Byte.of_N (Z.to_N (z mod 256)) with
  | Some b => b
  | None => x00
  end.

Definition Z_of_byte (b : byte) : Z := Z.of_N (Byte.to_N b).

(** ** Hasher (hasher/index.ts) *)

Module Hasher.
Section WithBlake2b.

(** The [blake2b] package: a constructor taking the output length, a key,
    a salt and a personalisation, and the two methods the class uses. *)
Variable Blake2b : Type.
Variable blake2b : nat -> option Bytes -> option Bytes -> Bytes -> Blake2b.
Variable blake2b_update : Blake2b -> Bytes -> Blake2b.
Variable blake2b_digest_hex : Blake2b -> string.

(** [../bytes] and [./advanced]. *)
Variable BytesLike : Type.
Variable bytesFrom : BytesLike -> Bytes.
Variable bytesFrom_utf8 : string -> Bytes.
Variable CKB_BLAKE2B_PERSONAL : string.

(** [class Hasher { private readonly hasher: Blake2b }]. The methods
    mutate the wrapped digest state and return [this]; here the updated
    object is the result. *)
Record Hasher := { hasher : Blake2b }.

(** [constructor(outLength = 32, personal = CKB_BLAKE2B_PERSONAL)]. *)
Definition new_Hasher_with (outLength : nat) (personal : string) : Hasher :=
  {| hasher := blake2b outLength None None (bytesFrom_utf8 personal) |}.

Definition new_Hasher : Hasher := new_Hasher_with 32 CKB_BLAKE2B_PERSONAL.

(** [update(data) { this.hasher.update(bytesFrom(data)); return this; }] *)
Definition update (h : Hasher) (data : BytesLike) : Hasher :=
  {| hasher := blake2b_update (hasher h) (bytesFrom data) |}.

(** [digest() { return `0x${this.hasher.digest("hex")}`; }] *)
Definition digest (h : Hasher) : string :=
  "0x" ++ blake2b_digest_hex (hasher h).

(** [ckbHash(...data)]: a fresh hasher, one [update] per argument in
    order, then [digest]. *)
Definition ckbHash (data : list BytesLike) : string :=
  digest (fold_left update data new_Hasher).

Lemma ckbHash_unfold (data : list BytesLike) :
  ckbHash data = digest (fold_left update data new_Hasher).
Proof. reflexivity. Qed.

Lemma ckbHash_snoc (data : list BytesLike) (d : BytesLike) :
  ckbHash (data ++ [d]) = digest (update (fold_left update data new_Hasher) d).
Proof. unfold ckbHash. now rewrite fold_left_app. Qed.

(** What streaming means for the digest primitive: absorbing [a] and then
    [b] cannot be told apart, at [digest], from absorbing [a ++ b]. *)
Definition streaming : Prop :=
  forall (s : Blake2b) (a b : Bytes),
    blake2b_digest_hex (blake2b_update (blake2b_update s a) b)
    = blake2b_digest_hex (blake2b_update s (a ++ b)%list).

(** C3. Hash split homomorphism: [ckbHash(a, b)] is the digest of a fresh
    [Hasher] updated with [a] and then with [b]; and, the digest primitive
    being a streaming one, it is also [ckbHash] of the single argument
    [ab] whose bytes are those of [a] followed by those of [b]. *)
Theorem ckbHash_split (a b ab : BytesLike) :
  streaming ->
  bytesFrom ab = (bytesFrom a ++ bytesFrom b)%list ->
  ckbHash [a; b] = digest (update (update new_Hasher a) b)
  /\ ckbHash [a; b] = ckbHash [ab].
Proof.
  intros Hstream Hab. split; [reflexivity|].
  unfold ckbHash, digest, update. simpl.
  rewrite Hab. f_equal. apply Hstream.
Qed.

(** *** Chunking *)

Lemma fold_update_digest (data : list BytesLike) (s : Blake2b) (d : Bytes) :
  streaming ->
  blake2b_digest_hex (hasher (fold_left update data {| hasher := blake2b_update s d |}))
  = blake2b_digest_hex (blake2b_update s (d ++ concat (map bytesFrom data))%list).
Proof.
  intros Hstream. revert s d. induction data as [|x rest IH]; intros s d; simpl.
  - now rewrite app_nil_r.
  - unfold update at 2. simpl. rewrite IH. apply Hstream.
Qed.

(** X13. With a streaming digest primitive, [ckbHash] depends only on the
    bytes of its arguments taken together, not on how they are cut into
    arguments: two non-empty argument lists with the same concatenation
    have the same hash. *)
Theorem ckbHash_chunking (data1 data2 : list BytesLike) :
  streaming ->
  data1 <> [] -> data2 <> [] ->
  concat (map bytesFrom data1) = concat (map bytesFrom data2) ->
  ckbHash data1 = ckbHash data2.
Proof.
  intros Hstream H1 H2 Hsame.
  destruct data1 as [|a rest1]; [contradiction|].
  destruct data2 as [|b rest2]; [contradiction|].
  unfold ckbHash, digest. simpl fold_left. unfold update at 2 4.
  rewrite !fold_update_digest by exact Hstream.
  simpl in Hsame. now rewrite Hsame.
Qed.

End WithBlake2b.

(** A toy digest for running the definitions: the state is the text
    absorbed so far, after the personalisation, and the digest prints it. *)
Module Toy.
Definition init (_ : nat) (_ _ : option Bytes) (personal : Bytes) : Bytes := personal.
Definition absorb (s d : Bytes) : Bytes := (s ++ d)%list.
Definition show (s : Bytes) : string := string_of_list_byte s.

Lemma toy_streaming : streaming Bytes absorb show.
Proof. intros s a b. unfold absorb. now rewrite <- app_assoc. Qed.

Definition hash : list Bytes -> string :=
  ckbHash Bytes init absorb show Bytes (fun d => d) list_byte_of_string "ckb-default-hash".
End Toy.

Example ckbHash_toy :
  Toy.hash [[x61; x62]; [x63]] = "0xckb-default-hashabc".
Proof. reflexivity. Qed.

Lemma ckbHash_split_witness :
  Toy.hash [[x61; x62]; [x63]]
  = digest Bytes Toy.show
      (update Bytes Toy.absorb Bytes (fun d => d)
         (update Bytes Toy.absorb Bytes (fun d => d)
            (new_Hasher Bytes Toy.init list_byte_of_string "ckb-default-hash")
            [x61; x62]) [x63])
  /\ Toy.hash [[x61; x62]; [x63]] = Toy.hash [[x61; x62; x63]].
Proof.
  apply (ckbHash_split Bytes Toy.init Toy.absorb Toy.show Bytes (fun d => d)
           list_byte_of_string "ckb-default-hash"
           [x61; x62] [x63] [x61; x62; x63]).
  - exact Toy.toy_streaming.
  - reflexivity.
Defined.

End Hasher.

(** ** JavaScript values, exceptions and effects *)

(** The values that travel through the RPC layer. The numbers that occur
    there (correlation ids, limits) are integers; fractional numbers are
    left out. An object is the list of its own properties, keys distinct. *)
Inductive Js : Type :=
| JUndefined
| JNull
| JBool (b : bool)
| JNum (n : Z)
| JStr (s : string)
| JArr (items : list Js)
| JObj (fields : list (string * Js)).

(** What a [throw] or a rejected promise carries. *)
Inductive Thrown : Type :=
| ThrowError (message : string)      (* throw new Error(message) *)
| ThrowTypeError                     (* a property read on undefined or null *)
| ThrowValue (v : Js)                (* throw v, for a value that is no Error *)
| Rejected (reason : string).        (* a rejection raised by a collaborator *)

Inductive Result (A : Type) : Type :=
| Ok (a : A)
| Throw (e : Thrown).
Arguments Ok {A} a.
Arguments Throw {A} e.

Definition bindR {A B : Type} (r : Result A) (k : A -> Result B) : Result B :=
  match r with
  | Ok a => k a
  | Throw e => Throw e
  end.

Definition is_Ok {A : Type} (r : Result A) : Prop := exists a, r = Ok a.

(** An asynchronous method is a computation over the state [S] of the
    world it runs in, ending in a value or in a rejection. *)
Definition M (S A : Type) : Type := S -> Result A * S.

Definition ret {S A : Type} (a : A) : M S A := fun s => (Ok a, s).
Definition throw {S A : Type} (e : Thrown) : M S A := fun s => (Throw e, s).
Definition liftR {S A : Type} (r : Result A) : M S A := fun s => (r, s).
Definition bind {S A B : Type} (m : M S A) (k : A -> M S B) : M S B :=
  fun s => match m s with
           | (Ok a, s') => k a s'
           | (Throw e, s') => (Throw e, s')
           end.

Declare Scope js_scope.
Delimit Scope js_scope with js.
Notation "x <- c1 ;; c2" := (bind c1 (fun x => c2))
  (at level 100, c1 at next level, right associativity) : js_scope.
Notation "x <-? c1 ;; c2" := (bindR c1 (fun x => c2))
  (at level 100, c1 at next level, right associativity) : js_scope.

(** [if (v)] *)
Definition truthy (v : Js) : bool :=
  match v with
  | JUndefined | JNull => false
  | JBool b => b
  | JNum n => negb (n =? 0)
  | JStr s => negb (String.eqb s "")
  | JArr _ | JObj _ => true
  end.

(** [a ?? b] *)
Definition nullish (a b : Js) : Js :=
  match a with
  | JUndefined | JNull => b
  | _ => a
  end.

(** [a === b], for [b] a primitive: an array or an object freshly parsed
    from a response is never the same object as anything else. *)
Definition strict_eq (a b : Js) : bool :=
  match a, b with
  | JUndefined, JUndefined => true
  | JNull, JNull => true
  | JBool x, JBool y => Bool.eqb x y
  | JNum x, JNum y => x =? y
  | JStr x, JStr y => String.eqb x y
  | _, _ => false
  end.

Fixpoint assoc (k : string) (fields : list (string * Js)) : option Js :=
  match fields with
  | [] => None
  | (k', v) :: rest => if String.eqb k k' then Some v else assoc k rest
  end.

(** [v.k], for the property names [id], [error] and [result], which no
    primitive and no array has. *)
Definition get (v : Js) (k : string) : Result Js :=
  match v with
  | JUndefined | JNull => Throw ThrowTypeError
  | JObj fields => Ok (default JUndefined (assoc k fields))
  | _ => Ok JUndefined
  end.

(** [args[i]], [undefined] past the end. *)
Definition arg (req : list Js) (i : nat) : Js := default JUndefined (req !! i).

(** ** ClientJsonRpc (client/jsonRpc/index.ts) *)

Module ClientJsonRpc.

Local Open Scope js_scope.

(** [JsonRpcPayload], of [./advanced]. *)
Record JsonRpcPayload : Type := {
  id : Z;
  method : string;
  params : list Js;
  jsonrpc : string;
}.

(** A transformer that returns or throws on the spot. *)
Definition Transformer : Type := Js -> Result Js.

(** A promise, as far as [Promise.all] can tell promises apart: how it
    ends, and the turn of the event loop, counted from the call, in which
    it does. Promises that settle in turn 0 are those of transformers that
    return a plain value or throw; they settle in the order of their
    arguments. *)
Record Promise (A : Type) : Type := {
  settles : nat;
  outcome : Result A;
}.
Arguments settles {A} _.
Arguments outcome {A} _.

Definition settled {A : Type} (r : Result A) : Promise A :=
  {| settles := 0; outcome := r |}.

(** [(_: any) => unknown]: a transformer of either kind; one that returns a
    promise is followed by the [async] function that called it. *)
Definition AnyTransformer : Type := Js -> Promise Js.

Definition sync (f : Transformer) : AnyTransformer := fun v => settled (f v).

(** [async transform(value, transformer?)] *)
Definition transform (value : Js) (transformer : option AnyTransformer) : Promise Js :=
  match transformer with
  | Some t => t value
  | None => settled (Ok value)
  end.

(** [Math.round]: the nearest integer, halves upwards. *)
Definition Math_round (x : Q) : Z := Qfloor (x + (1 # 2)).

(** Binary64 arithmetic, for magnitudes that do not overflow: a power of
    two, rounding to the nearest integer with ties to the even one, the
    exponent [floor (log2 x)] of a positive [x], and the double nearest to
    a rational (53 bits of significand, exponents not below -1074). *)
Definition pow2 (k : Z) : Q :=
  if k <? 0 then 1 # Z.to_pos (2 ^ (- k)) else inject_Z (2 ^ k).

Definition round_half_even (y : Q) : Z :=
  let f := Qfloor y in
  match (y - inject_Z f ?= 1 # 2)%Q with
  | Lt => f
  | Gt => f + 1
  | Eq => if Z.even f then f else f + 1
  end.

Definition exponent (x : Q) : Z :=
  if Qle_bool 1 x then Z.log2 (Qfloor x) else - Z.log2_up (Qceiling (/ x)).

Definition nearest (x : Q) : Q :=
  let k := Z.max (exponent x - 52) (-1074) in
  (inject_Z (round_half_even (x / pow2 k)) * pow2 k)%Q.

Definition double (x : Q) : Q :=
  match (x ?= 0)%Q with
  | Eq => 0%Q
  | Gt => nearest x
  | Lt => (- nearest (- x))%Q
  end.

(** [buildPayload(method, req)]; [rnd] is what [Math.random()] returned.
    The product is a double, the id the integer nearest to it. *)
Definition buildPayload (rnd : Q) (method : string) (req : list Js) : JsonRpcPayload :=
  {| id := Math_round (double (rnd * inject_Z 10000));
     method := method;
     params := req;
     jsonrpc := "2.0" |}.

(** [constructor(private readonly url_, private readonly timeout = 30000)] *)
Record Client : Type := {
  url_ : string;
  timeout : Z;
}.

Definition new_ClientJsonRpc (url : string) (timeout : option Z) : Client :=
  {| url_ := url; timeout := default 30000 timeout |}.

(** [get url()] *)
Definition url (c : Client) : string := url_ c.

(** One HTTP exchange, as [send] sees it: [fetch] rejects (the network
    failed, or the abort signal fired), or it resolves and [raw.json()]
    rejects, or both resolve and give the parsed response. *)
Inductive Exchange : Type :=
| FetchRejected (e : Thrown)
| BodyRejected (e : Thrown)
| Responded (res : Js).

(** The requests put on the wire so far, oldest first. *)
Definition Wire : Type := list (string * JsonRpcPayload).

Section WithTransport.

(** [cross-fetch] and the node behind it: the exchange that a POST of
    [payload] to the URL has when the abort timer is armed with the
    given number of milliseconds. *)
Variable fetch : string -> Z -> JsonRpcPayload -> Exchange.

(** [await fetch(this.url, { method: "POST", ..., body:
    JSON.stringify(payload), signal })] followed by [await raw.json()]. *)
Definition exchange (c : Client) (payload : JsonRpcPayload) : M Wire Js :=
  fun wire =>
    let wire' := (wire ++ [(url c, payload)])%list in
    match fetch (url c) (timeout c) payload with
    | FetchRejected e => (Throw e, wire')
    | BodyRejected e => (Throw e, wire')
    | Responded res => (Ok res, wire')
    end.

(** [Number.prototype.toString], the text a number has in a template
    string: decimal digits up to 1e21, exponent form from there on. *)
Variable Number_toString : Z -> string.

(** [`${v}`], for a value parsed from JSON. An array is joined with
    commas, [null] and [undefined] items left empty. An object prints as
    ["[object Object]"] unless it has a [toString] property of its own:
    no JSON value can be called, [valueOf] gives no primitive either, and
    the conversion throws a [TypeError]. *)
Fixpoint to_string (v : Js) : Result string :=
  match v with
  | JUndefined => Ok "undefined"
  | JNull => Ok "null"
  | JBool true => Ok "true"
  | JBool false => Ok "false"
  | JNum n => Ok (Number_toString n)
  | JStr s => Ok s
  | JArr items =>
      (fix join (l : list Js) : Result string :=
         match l with
         | [] => Ok ""
         | x :: rest =>
             match match x with
                   | JUndefined | JNull => Ok ""
                   | _ => to_string x
                   end with
             | Throw e => Throw e
             | Ok first =>
                 match rest with
                 | [] => Ok first
                 | _ :: _ =>
                     match join rest with
                     | Throw e => Throw e
                     | Ok others => Ok (first ++ "," ++ others)
                     end
                 end
             end
         end) items
  | JObj fields =>
      match assoc "toString" fields with
      | Some _ => Throw ThrowTypeError
      | None => Ok "[object Object]"
      end
  end.

(** [async send(payload)]. The abort timer and its [clearTimeout] have no
    part of their own here: they show in which exchange [fetch] has. *)
Definition send (c : Client) (payload : JsonRpcPayload) : M Wire Js :=
  res <- exchange c payload ;;
  res_id <- liftR (get res "id") ;;
  if negb (strict_eq res_id (JNum (id payload))) then
    got <- liftR (to_string res_id) ;;
    throw (ThrowError ("Id mismatched, got " ++ got
                       ++ ", expected " ++ Number_toString (id payload)))
  else
    res_error <- liftR (get res "error") ;;
    if truthy res_error then throw (ThrowValue res_error)
    else liftR (get res "result").

(** [req.concat(Array.from(new Array(Math.max(n - req.length, 0))))] *)
Definition pad (req : list Js) (n : nat) : list Js :=
  (req ++ replicate (n - length req) JUndefined)%list.

(** [inTransformers[i]], [undefined] past the end. *)
Definition at_index (inTransformers : list (option AnyTransformer)) (i : nat)
  : option AnyTransformer :=
  mjoin (inTransformers !! i).

(** The rejection that comes first in time, with the turn it comes in;
    of two in one turn, the one of the earlier promise. *)
Fixpoint first_rejection {A : Type} (promises : list (Promise A))
  : option (nat * Thrown) :=
  match promises with
  | [] => None
  | p :: rest =>
      match outcome p, first_rejection rest with
      | Ok _, later => later
      | Throw e, None => Some (settles p, e)
      | Throw e, Some (turn, e') =>
          if (settles p <=? turn)%nat then Some (settles p, e) else Some (turn, e')
      end
  end.

Definition fulfilled {A : Type} (promises : list (Promise A)) : list A :=
  omap (fun p => match outcome p with Ok a => Some a | Throw _ => None end) promises.

(** [await Promise.all(promises)]: every value in order when all fulfil,
    else the rejection that came first. *)
Definition Promise_all {A : Type} (promises : list (Promise A)) : Result (list A) :=
  match first_rejection promises with
  | Some (_, e) => Throw e
  | None => Ok (fulfilled promises)
  end.

(** The argument list of [buildPayload] inside [buildSender]. *)
Definition transformed (inTransformers : list (option AnyTransformer)) (req : list Js)
  : Result (list Js) :=
  Promise_all
    (imap (fun i v => transform v (at_index inTransformers i))
          (pad req (length inTransformers))).

(** [buildSender(rpcMethod, inTransformers, outTransformer?)], applied to
    the arguments [req]; [rnd] is the draw of [Math.random()] that
    [buildPayload] makes in this call. *)
Definition buildSender (c : Client) (rpcMethod : string)
    (inTransformers : list (option AnyTransformer))
    (outTransformer : option AnyTransformer)
    (rnd : Q) (req : list Js) : M Wire Js :=
  args <- liftR (transformed inTransformers req) ;;
  let payload := buildPayload rnd rpcMethod args in
  res <- send c payload ;;
  liftR (outcome (transform res outTransformer)).

(** [JsonRpcTransformers] of [./advanced] and [numToHex] of [../../num]. *)
Variable indexerSearchKeyFrom : Transformer.
Variable findCellsResponseTo : Transformer.
Variable numToHex : Js -> Result string.

(** [findCellsPagedNoCache = this.buildSender("get_cells", [...], ...)] *)
Definition findCellsPagedNoCache (c : Client) : Q -> list Js -> M Wire Js :=
  buildSender c "get_cells"
    [ Some (sync indexerSearchKeyFrom);
      Some (sync (fun order => Ok (nullish order (JStr "asc"))));
      Some (sync (fun limit => h <-? numToHex (nullish limit (JNum 10)) ;; Ok (JStr h))) ]
    (Some (sync findCellsResponseTo)).

(** *** The id and the timeout *)

Lemma pow2_pos (k : Z) : (0 < pow2 k)%Q.
Proof.
  unfold pow2. destruct (k <? 0) eqn:E.
  - reflexivity.
  - apply Z.ltb_ge in E. change 0%Q with (inject_Z 0). rewrite <- Zlt_Qlt.
    now apply Z.pow_pos_nonneg.
Qed.

Lemma round_half_even_nonneg (y : Q) : (0 <= y)%Q -> 0 <= round_half_even y.
Proof.
  intros Hy. unfold round_half_even.
  assert (Hf : 0 <= Qfloor y).
  { rewrite <- (Qfloor_Z 0). now apply Qfloor_resp_le. }
  destruct (y - inject_Z (Qfloor y) ?= 1 # 2)%Q; [destruct (Z.even _)| |]; lia.
Qed.

Lemma round_half_even_le (y : Q) (n : Z) : (y <= inject_Z n)%Q -> round_half_even y <= n.
Proof.
  intros Hy. unfold round_half_even.
  assert (Hf : Qfloor y <= n).
  { rewrite <- (Qfloor_Z n). now apply Qfloor_resp_le. }
  destruct (Z.eq_dec (Qfloor y) n) as [E|E].
  - assert (Hlt : (y - inject_Z (Qfloor y) < 1 # 2)%Q).
    { rewrite E. apply Qle_lt_trans with 0%Q; [|reflexivity].
      apply (Qplus_le_l _ _ (inject_Z n)). ring_simplify. exact Hy. }
    rewrite (proj1 (Qlt_alt _ _) Hlt). lia.
  - destruct (y - inject_Z (Qfloor y) ?= 1 # 2)%Q; [destruct (Z.even _)| |]; lia.
Qed.

Lemma exponent_le (x : Q) (n : Z) :
  0 <= n -> (x <= inject_Z n)%Q -> exponent x <= Z.log2 n.
Proof.
  intros Hn Hx. unfold exponent. destruct (Qle_bool 1 x).
  - apply Z.log2_le_mono. rewrite <- (Qfloor_Z n). now apply Qfloor_resp_le.
  - pose proof (Z.log2_up_nonneg (Qceiling (/ x))). pose proof (Z.log2_nonneg n). lia.
Qed.

Lemma nearest_range (x : Q) :
  (0 <= x)%Q -> (x <= inject_Z 10000)%Q ->
  (0 <= nearest x)%Q /\ (nearest x <= inject_Z 10000)%Q.
Proof.
  intros Hlo Hhi. unfold nearest.
  set (k := Z.max (exponent x - 52) (-1074)).
  assert (Hk : k <= -39).
  { pose proof (exponent_le x 10000 ltac:(lia) Hhi) as He.
    change (Z.log2 10000) with 13 in He. unfold k. lia. }
  pose proof (pow2_pos k) as Hp.
  assert (Hy : (0 <= x / pow2 k)%Q).
  { apply Qle_shift_div_l; [exact Hp|]. now rewrite Qmult_0_l. }
  split.
  - apply Qmult_le_0_compat; [|now apply Qlt_le_weak].
    change 0%Q with (inject_Z 0). rewrite <- Zle_Qle. now apply round_half_even_nonneg.
  - assert (Hn : (inject_Z 10000 / pow2 k == inject_Z (10000 * 2 ^ (- k)))%Q).
    { unfold pow2. destruct (k <? 0) eqn:E; [|apply Z.ltb_ge in E; lia].
      unfold Qdiv, Qinv, Qeq, Qmult. simpl.
      rewrite Z2Pos.id by (apply Z.pow_pos_nonneg; lia). lia. }
    assert (Hm : round_half_even (x / pow2 k) <= 10000 * 2 ^ (- k)).
    { apply round_half_even_le. rewrite <- Hn.
      apply Qmult_le_compat_r; [exact Hhi|]. apply Qinv_le_0_compat.
      now apply Qlt_le_weak. }
    apply Qle_trans with (inject_Z (10000 * 2 ^ (- k)) * pow2 k)%Q.
    + apply Qmult_le_compat_r; [now rewrite <- Zle_Qle | now apply Qlt_le_weak].
    + rewrite <- Hn. unfold Qdiv. rewrite <- Qmult_assoc.
      rewrite (Qmult_comm (/ pow2 k)), Qmult_inv_r, Qmult_1_r; [apply Qle_refl|].
      intros E. rewrite E in Hp. discriminate.
Qed.

(** Rounding to a double leaves a product inside 0 .. 10000 there. *)
Lemma double_range (x : Q) :
  (0 <= x)%Q -> (x <= inject_Z 10000)%Q ->
  (0 <= double x)%Q /\ (double x <= inject_Z 10000)%Q.
Proof.
  intros Hlo Hhi. unfold double.
  destruct (x ?= 0)%Q eqn:E.
  - split; discriminate.
  - exfalso. apply Qlt_alt in E. apply (Qlt_not_le _ _ E Hlo).
  - now apply nearest_range.
Qed.

(** A draw of [Math.random()] lies in [0, 1): the id is one of 0 .. 10000. *)
Lemma buildPayload_id_range (rnd : Q) (method : string) (req : list Js) :
  (0 <= rnd)%Q -> (rnd < 1)%Q ->
  0 <= id (buildPayload rnd method req) <= 10000.
Proof.
  intros Hlo Hhi. simpl. unfold Math_round.
  destruct (double_range (rnd * inject_Z 10000)) as [Hd0 Hd1].
  { change 0%Q with (0 * inject_Z 10000)%Q.
    apply Qmult_le_compat_r; [exact Hlo | discriminate]. }
  { apply Qle_trans with (1 * inject_Z 10000)%Q; [|discriminate].
    apply Qmult_le_compat_r; [now apply Qlt_le_weak | discriminate]. }
  set (x := (double (rnd * inject_Z 10000) + (1 # 2))%Q).
  assert (Hx0 : (inject_Z 0 <= x)%Q).
  { unfold x. change (inject_Z 0) with (0 + 0)%Q.
    apply Qplus_le_compat; [exact Hd0 | discriminate]. }
  assert (Hx1 : (x < inject_Z 10001)%Q).
  { unfold x. apply Qle_lt_trans with (inject_Z 10000 + (1 # 2))%Q.
    - apply Qplus_le_compat; [exact Hd1 | apply Qle_refl].
    - reflexivity. }
  split.
  - rewrite <- (Qfloor_Z 0). now apply Qfloor_resp_le.
  - assert (H : (inject_Z (Qfloor x) < inject_Z 10001)%Q)
      by (eapply Qle_lt_trans; [apply Qfloor_le | exact Hx1]).
    rewrite <- Zlt_Qlt in H. lia.
Qed.

(** The timer is armed with the timeout given at construction, 30000 ms
    unless the caller chose another. *)
Lemma exchange_timeout (url : string) (ms : option Z) (payload : JsonRpcPayload)
    (wire : Wire) :
  fst (exchange (new_ClientJsonRpc url ms) payload wire)
  = match fetch url (default 30000 ms) payload with
    | FetchRejected e => Throw e
    | BodyRejected e => Throw e
    | Responded res => Ok res
    end.
Proof.
  unfold exchange. simpl.
  now destruct (fetch url (default 30000 ms) payload).
Qed.

(** *** What [send] does with a response *)

Lemma strict_eq_num (v : Js) (n : Z) : strict_eq v (JNum n) = true <-> v = JNum n.
Proof.
  destruct v; simpl; split; try discriminate; try congruence.
  - intros H. apply Z.eqb_eq in H. now subst.
  - intros H. injection H as ->. apply Z.eqb_refl.
Qed.

Lemma strict_eq_num_false (v : Js) (n : Z) : v <> JNum n -> strict_eq v (JNum n) = false.
Proof.
  intros Hne. destruct (strict_eq v (JNum n)) eqn:E; [|reflexivity].
  apply strict_eq_num in E. contradiction.
Qed.

Lemma truthy_object (fields : list (string * Js)) : truthy (JObj fields) = true.
Proof. reflexivity. Qed.

(** Every call of [send] puts exactly its payload on the wire. *)
Lemma send_wire (c : Client) (payload : JsonRpcPayload) (wire : Wire) :
  snd (send c payload wire) = (wire ++ [(url c, payload)])%list.
Proof.
  unfold send, bind, exchange, liftR, throw.
  destruct (fetch (url c) (timeout c) payload) as [e|e|res]; simpl; try reflexivity.
  destruct (get res "id") as [res_id|e]; simpl; [|reflexivity].
  destruct (negb (strict_eq res_id (JNum (id payload)))); simpl.
  - destruct (to_string res_id); reflexivity.
  - destruct (get res "error") as [res_error|e]; simpl; [|reflexivity].
    destruct (truthy res_error); reflexivity.
Qed.

(** Nothing is caught: a rejection of [fetch] or of [raw.json()] reaches
    the caller as it is. *)
Lemma send_rejected (c : Client) (payload : JsonRpcPayload) (wire : Wire) (e : Thrown) :
  fetch (url c) (timeout c) payload = FetchRejected e
  \/ fetch (url c) (timeout c) payload = BodyRejected e ->
  fst (send c payload wire) = Throw e.
Proof.
  intros [H|H]; unfold send, bind, exchange; now rewrite H.
Qed.

(** The run of [send] on a response whose id is not the one sent. *)
Lemma send_mismatch_run (c : Client) (payload : JsonRpcPayload) (wire : Wire)
    (res res_id : Js) :
  fetch (url c) (timeout c) payload = Responded res ->
  get res "id" = Ok res_id ->
  res_id <> JNum (id payload) ->
  send c payload wire
  = (match to_string res_id with
     | Ok got => Throw (ThrowError ("Id mismatched, got " ++ got ++ ", expected "
                                    ++ Number_toString (id payload)))
     | Throw e => Throw e
     end,
     (wire ++ [(url c, payload)])%list).
Proof.
  intros Hfetch Hid Hne.
  unfold send, bind, exchange, liftR, throw.
  rewrite Hfetch. simpl. rewrite Hid. simpl.
  rewrite (strict_eq_num_false _ _ Hne). simpl.
  now destruct (to_string res_id).
Qed.


(** C6, as amended. With the id matching: an [error] that is truthy (so
    every error object with its code and message) is thrown as the value
    parsed from the response, with no error type of the client's around
    it; with the error missing or falsy ([null], [0], [""], [false]),
    [send] returns the [result] property of the response. *)
Theorem send_matching_id (c : Client) (payload : JsonRpcPayload) (wire : Wire)
    (fields : list (string * Js)) :
  fetch (url c) (timeout c) payload = Responded (JObj fields) ->
  assoc "id" fields = Some (JNum (id payload)) ->
  let res_error := default JUndefined (assoc "error" fields) in
  let res_result := default JUndefined (assoc "result" fields) in
  let wire' := (wire ++ [(url c, payload)])%list in
  (truthy res_error = true ->
     send c payload wire = (Throw (ThrowValue res_error), wire'))
  /\ (forall error_fields, assoc "error" fields = Some (JObj error_fields) ->
     send c payload wire = (Throw (ThrowValue (JObj error_fields)), wire'))
  /\ (truthy res_error = false ->
     send c payload wire = (Ok res_result, wire')).
Proof.
  intros Hfetch Hid res_error res_result wire'.
  assert (Hrun : send c payload wire
                 = (if truthy res_error then Throw (ThrowValue res_error)
                    else Ok res_result, wire')).
  { unfold send, bind, exchange, liftR, throw.
    rewrite Hfetch. simpl. rewrite Hid. simpl.
    rewrite Z.eqb_refl. simpl.
    fold res_error res_result wire'. now destruct (truthy res_error). }
  repeat split.
  - intros Ht. now rewrite Hrun, Ht.
  - intros error_fields He. rewrite Hrun. subst res_error. now rewrite He.
  - intros Ht. now rewrite Hrun, Ht.
Qed.

(** *** The payloads that [buildSender] sends *)

Lemma first_rejection_None {A : Type} (promises : list (Promise A)) :
  first_rejection promises = None <-> Forall (fun p => is_Ok (outcome p)) promises.
Proof.
  induction promises as [|p rest IH]; simpl.
  - split; [constructor | reflexivity].
  - destruct (outcome p) as [a|e] eqn:Hp.
    + rewrite IH. split.
      * intros H. constructor; [now exists a | exact H].
      * now inversion 1.
    + split.
      * destruct (first_rejection rest) as [[turn e']|]; [|discriminate].
        destruct (settles p <=? turn)%nat; discriminate.
      * inversion 1 as [|? ? [a Ha] _]. congruence.
Qed.

Lemma first_rejection_Some {A : Type} (promises : list (Promise A)) (turn : nat)
    (e : Thrown) :
  first_rejection promises = Some (turn, e) ->
  exists j q, promises !! j = Some q /\ outcome q = Throw e /\ settles q = turn.
Proof.
  revert turn e. induction promises as [|p rest IH]; intros turn e; simpl;
    [discriminate|].
  destruct (outcome p) as [a|e0] eqn:Hp.
  - intros H. destruct (IH _ _ H) as (j & q & Hj & Hq & Ht).
    now exists (S j), q.
  - destruct (first_rejection rest) as [[turn' e']|] eqn:Hrest.
    + destruct (settles p <=? turn')%nat.
      * intros [= <- <-]. now exists 0%nat, p.
      * intros [= <- <-]. destruct (IH _ _ eq_refl) as (j & q & Hj & Hq & Ht).
        now exists (S j), q.
    + intros [= <- <-]. now exists 0%nat, p.
Qed.

Lemma fulfilled_Ok {A : Type} (promises : list (Promise A)) :
  Forall (fun p => is_Ok (outcome p)) promises ->
  outcome <$> promises = Ok <$> fulfilled promises.
Proof.
  induction 1 as [|p rest [a Ha] _ IH]; [reflexivity|].
  unfold fulfilled. simpl. rewrite Ha. simpl. f_equal. exact IH.
Qed.

Lemma Promise_all_Ok {A : Type} (promises : list (Promise A)) (results : list A) :
  Promise_all promises = Ok results -> outcome <$> promises = Ok <$> results.
Proof.
  unfold Promise_all.
  destruct (first_rejection promises) as [[turn e]|] eqn:H; [discriminate|].
  intros [= <-]. apply fulfilled_Ok. now apply first_rejection_None.
Qed.

Lemma Promise_all_total {A : Type} (promises : list (Promise A)) :
  Forall (fun p => is_Ok (outcome p)) promises -> is_Ok (Promise_all promises).
Proof.
  intros H. unfold Promise_all.
  rewrite (proj2 (first_rejection_None promises) H). now eexists.
Qed.

Lemma pad_length (req : list Js) (n : nat) :
  length (pad req n) = (length req `max` n)%nat.
Proof. unfold pad. rewrite length_app, length_replicate. lia. Qed.

Lemma pad_lookup (req : list Js) (n i : nat) :
  (i < length req `max` n)%nat -> pad req n !! i = Some (arg req i).
Proof.
  intros Hi. unfold pad, arg.
  destruct (decide (i < length req)%nat) as [Hlt|Hge].
  - rewrite lookup_app_l by exact Hlt.
    destruct (lookup_lt_is_Some_2 req i Hlt) as [v Hv]. now rewrite Hv.
  - rewrite lookup_app_r by lia.
    rewrite (lookup_ge_None_2 req i) by lia. simpl.
    apply lookup_replicate_2. lia.
Qed.

Lemma transformed_Ok (inTransformers : list (option AnyTransformer)) (req args : list Js) :
  transformed inTransformers req = Ok args ->
  length args = (length req `max` length inTransformers)%nat
  /\ forall i v, args !! i = Some v ->
       outcome (transform (arg req i) (at_index inTransformers i)) = Ok v.
Proof.
  unfold transformed. intros H. apply Promise_all_Ok in H.
  assert (Hlen : length args = (length req `max` length inTransformers)%nat).
  { rewrite <- (length_fmap Ok args), <- H, length_fmap, length_imap. apply pad_length. }
  split; [exact Hlen|].
  intros i v Hv.
  assert (Hi : (i < length req `max` length inTransformers)%nat).
  { rewrite <- Hlen. eapply lookup_lt_Some, Hv. }
  assert (Hl : (Ok <$> args) !! i = Some (Ok v)) by now rewrite list_lookup_fmap, Hv.
  rewrite <- H, list_lookup_fmap, list_lookup_imap, (pad_lookup _ _ _ Hi) in Hl.
  simpl in Hl. congruence.
Qed.

Lemma transformed_total (inTransformers : list (option AnyTransformer)) (req : list Js) :
  (forall i, (i < length req `max` length inTransformers)%nat ->
     is_Ok (outcome (transform (arg req i) (at_index inTransformers i)))) ->
  is_Ok (transformed inTransformers req).
Proof.
  intros Hall. unfold transformed. apply Promise_all_total.
  apply Forall_lookup. intros i r Hr.
  rewrite list_lookup_imap in Hr.
  destruct (pad req (length inTransformers) !! i) as [v|] eqn:Hv; [|discriminate].
  assert (Hi : (i < length req `max` length inTransformers)%nat).
  { rewrite <- pad_length. eapply lookup_lt_Some, Hv. }
  rewrite (pad_lookup _ _ _ Hi) in Hv. injection Hv as <-.
  simpl in Hr. injection Hr as <-. now apply Hall.
Qed.

Lemma buildSender_wire (c : Client) (rpcMethod : string)
    (inTransformers : list (option AnyTransformer))
    (outTransformer : option AnyTransformer)
    (rnd : Q) (req : list Js) (wire : Wire) :
  snd (buildSender c rpcMethod inTransformers outTransformer rnd req wire)
  = match transformed inTransformers req with
    | Ok args => (wire ++ [(url c, buildPayload rnd rpcMethod args)])%list
    | Throw _ => wire
    end.
Proof.
  unfold buildSender, bind, liftR.
  destruct (transformed inTransformers req) as [args|e]; [|reflexivity].
  pose proof (send_wire c (buildPayload rnd rpcMethod args) wire) as Hw.
  destruct (send c (buildPayload rnd rpcMethod args) wire) as [[res|e] wire'];
    simpl in *; exact Hw.
Qed.

(** C9. Wire payload well-formedness: [buildPayload] yields an object with
    [jsonrpc: "2.0"], the method and the params it was given, and an
    integer id (one of 0 .. 10000 for a draw of [Math.random()] in
    [0, 1)). A call of a sender made by [buildSender] puts at most one
    request on the wire, and that request has this form: its method is the
    sender's; its params are as many as the longer of the arguments and
    the input transformers; where there is a transformer, the parameter is
    what the transformer made of the argument (of [undefined] where the
    caller gave none), and where there is none, it is the argument as
    given. The request is sent whenever the transformers succeed. *)
Theorem buildSender_payload (c : Client) (rpcMethod : string)
    (inTransformers : list (option AnyTransformer))
    (outTransformer : option AnyTransformer)
    (rnd : Q) (req : list Js) (wire : Wire) :
  (0 <= rnd)%Q -> (rnd < 1)%Q ->
  (forall method' req',
     jsonrpc (buildPayload rnd method' req') = "2.0"
     /\ method (buildPayload rnd method' req') = method'
     /\ params (buildPayload rnd method' req') = req'
     /\ 0 <= id (buildPayload rnd method' req') <= 10000)
  /\ exists sent : Wire,
      snd (buildSender c rpcMethod inTransformers outTransformer rnd req wire)
      = (wire ++ sent)%list
      /\ (length sent <= 1)%nat
      /\ (forall u p, In (u, p) sent ->
            u = url c
            /\ jsonrpc p = "2.0"
            /\ method p = rpcMethod
            /\ 0 <= id p <= 10000
            /\ length (params p) = (length req `max` length inTransformers)%nat
            /\ (forall i t, inTransformers !! i = Some (Some t) ->
                  exists v, outcome (t (arg req i)) = Ok v /\ params p !! i = Some v)
            /\ (forall i, (i < length req `max` length inTransformers)%nat ->
                  inTransformers !! i = None \/ inTransformers !! i = Some None ->
                  params p !! i = Some (arg req i)))
      /\ ((forall i t, inTransformers !! i = Some (Some t) ->
             is_Ok (outcome (t (arg req i)))) ->
          length sent = 1%nat).
Proof.
  intros Hlo Hhi. split.
  { intros method' req'. repeat (split; [reflexivity|]).
    now apply buildPayload_id_range. }
  rewrite buildSender_wire.
  destruct (transformed inTransformers req) as [args|e] eqn:Hargs.
  - exists [(url c, buildPayload rnd rpcMethod args)].
    destruct (transformed_Ok _ _ _ Hargs) as [Hlen Hlookup].
    split; [reflexivity|]. split; [simpl; lia|]. split; [|reflexivity].
    intros u p [Heq|[]]. injection Heq as <- <-.
    repeat (split; [reflexivity|]).
    split; [now apply buildPayload_id_range|].
    split; [exact Hlen|]. simpl. split.
    + intros i t Ht.
      destruct (lookup_lt_is_Some_2 args i) as [v Hv].
      { pose proof (lookup_lt_Some _ _ _ Ht) as Hi. unfold AnyTransformer in *. lia. }
      exists v. split; [|exact Hv].
      pose proof (Hlookup i v Hv) as H. unfold at_index, AnyTransformer in *.
      now rewrite Ht in H.
    + intros i Hi Hnone.
      destruct (lookup_lt_is_Some_2 args i) as [v Hv]; [lia|].
      pose proof (Hlookup i v Hv) as H. unfold at_index, AnyTransformer in *.
      destruct Hnone as [E|E]; rewrite E in H; simpl in H; congruence.
  - exists []. rewrite app_nil_r.
    split; [reflexivity|]. split; [simpl; lia|]. split.
    + intros u p [].
    + intros Hall. destruct (transformed_total inTransformers req) as [args Hok];
        [|congruence].
      intros i _. unfold at_index, AnyTransformer in *.
      destruct (inTransformers !! i) as [[t|]|] eqn:Ht; simpl.
      * now apply Hall.
      * now eexists.
      * now eexists.
Qed.

(** *** The defaults of [findCellsPagedNoCache] *)

Lemma wire_snoc_inv (wire : Wire) (x y : string * JsonRpcPayload) :
  (wire ++ [x])%list = (wire ++ [y])%list -> x = y.
Proof. intros H. apply app_inv_head in H. congruence. Qed.

Lemma wire_snoc_neq (wire : Wire) (x : string * JsonRpcPayload) :
  wire <> (wire ++ [x])%list.
Proof.
  intros H. apply (f_equal length) in H. rewrite length_app in H. simpl in H. lia.
Qed.

(** The request goes out as soon as the search key and the limit can be
    transformed; the order never stops it. *)
Lemma findCellsPagedNoCache_sends (c : Client) (rnd : Q) (req : list Js) (wire : Wire) :
  is_Ok (indexerSearchKeyFrom (arg req 0)) ->
  is_Ok (numToHex (nullish (arg req 2) (JNum 10))) ->
  exists p, snd (findCellsPagedNoCache c rnd req wire) = (wire ++ [(url c, p)])%list.
Proof.
  intros Hkey [h Hlimit]. unfold findCellsPagedNoCache. rewrite buildSender_wire.
  match goal with |- context [transformed ?ts req] =>
    destruct (transformed_total ts req) as [args ->] end; [|eauto].
  intros i _. destruct i as [|[|[|i]]]; simpl; try assumption.
  - now eexists.
  - rewrite Hlimit. now eexists.
  - now eexists.
Qed.

(** C10. Query-parameter defaulting: in the request that
    [findCellsPagedNoCache] sends, the second parameter is the caller's
    [order], or ["asc"] when that is omitted, and the third is [numToHex]
    of the caller's [limit], or of [10] when that is omitted. *)
Theorem findCellsPagedNoCache_defaults (c : Client) (rnd : Q) (req : list Js)
    (wire : Wire) (u : string) (p : JsonRpcPayload) :
  snd (findCellsPagedNoCache c rnd req wire) = (wire ++ [(u, p)])%list ->
  method p = "get_cells"
  /\ params p !! 1%nat = Some (nullish (arg req 1) (JStr "asc"))
  /\ (arg req 1 = JUndefined -> params p !! 1%nat = Some (JStr "asc"))
  /\ (forall order, arg req 1 = JStr order -> params p !! 1%nat = Some (JStr order))
  /\ (exists h, numToHex (nullish (arg req 2) (JNum 10)) = Ok h
                /\ params p !! 2%nat = Some (JStr h))
  /\ (arg req 2 = JUndefined ->
      exists h, numToHex (JNum 10) = Ok h /\ params p !! 2%nat = Some (JStr h))
  /\ (forall limit, arg req 2 = JNum limit ->
      exists h, numToHex (JNum limit) = Ok h /\ params p !! 2%nat = Some (JStr h)).
Proof.
  unfold findCellsPagedNoCache. rewrite buildSender_wire.
  match goal with |- context [transformed ?ts req] =>
    destruct (transformed ts req) as [args|e] eqn:Hargs end;
    [|intros H; now apply wire_snoc_neq in H].
  intros H. apply wire_snoc_inv in H. injection H as _ <-. simpl.
  destruct (transformed_Ok _ _ _ Hargs) as [Hlen Hlookup]. simpl in Hlen.
  destruct (lookup_lt_is_Some_2 args 1) as [order Horder]; [lia|].
  destruct (lookup_lt_is_Some_2 args 2) as [limit Hlimit]; [lia|].
  pose proof (Hlookup _ _ Horder) as H1. simpl in H1. injection H1 as H1.
  pose proof (Hlookup _ _ Hlimit) as H2. simpl in H2.
  destruct (numToHex (nullish (arg req 2) (JNum 10))) as [h|e] eqn:Hhex;
    simpl in H2; [|discriminate].
  injection H2 as H2. subst order limit.
  split; [reflexivity|]. split; [exact Horder|].
  split; [intros E; now rewrite Horder, E|].
  split; [intros o E; now rewrite Horder, E|].
  split; [now exists h|].
  split.
  - intros E. rewrite E in Hhex. now exists h.
  - intros n E. rewrite E in Hhex. now exists h.
Qed.

(** *** More on [send]: transport failures, odd bodies, and what an answer means *)

(** X1. A rejection of [fetch] (network failure, abort) or of [raw.json()]
    (a body that is no JSON) is not caught: [send] rejects with that very
    value, having put its one request on the wire. *)
Theorem send_transport_failure (c : Client) (payload : JsonRpcPayload) (wire : Wire)
    (e : Thrown) :
  fetch (url c) (timeout c) payload = FetchRejected e
  \/ fetch (url c) (timeout c) payload = BodyRejected e ->
  send c payload wire = (Throw e, (wire ++ [(url c, payload)])%list).
Proof.
  intros [H|H]; unfold send, bind, exchange; now rewrite H.
Qed.

(** X2. A body that parses to [null] makes the read of [res.id] throw a
    [TypeError]: the caller sees neither an id mismatch nor a result. *)
Theorem send_null_body (c : Client) (payload : JsonRpcPayload) (wire : Wire) :
  fetch (url c) (timeout c) payload = Responded JNull ->
  send c payload wire = (Throw ThrowTypeError, (wire ++ [(url c, payload)])%list).
Proof.
  intros H. unfold send, bind, exchange, liftR. now rewrite H.
Qed.

(** X3. [send] resolves only on a response whose [id] is the number sent,
    whose [error] is falsy, and then with the [result] property of that
    response. *)
Theorem send_Ok_inv (c : Client) (payload : JsonRpcPayload) (wire : Wire) (v : Js) :
  fst (send c payload wire) = Ok v ->
  exists res res_error,
    fetch (url c) (timeout c) payload = Responded res
    /\ get res "id" = Ok (JNum (id payload))
    /\ get res "error" = Ok res_error
    /\ truthy res_error = false
    /\ get res "result" = Ok v.
Proof.
  unfold send, bind, exchange, liftR, throw.
  destruct (fetch (url c) (timeout c) payload) as [e|e|res]; simpl; try discriminate.
  destruct (get res "id") as [res_id|e] eqn:Hid; simpl; [|discriminate].
  destruct (strict_eq res_id (JNum (id payload))) eqn:Heq; simpl;
    [|destruct (to_string res_id); discriminate].
  apply strict_eq_num in Heq. subst res_id.
  destruct (get res "error") as [res_error|e] eqn:Herr; simpl; [|discriminate].
  destruct (truthy res_error) eqn:Ht; simpl; [discriminate|].
  intros Hres. exists res, res_error. auto.
Qed.

(** The answer of a node that echoes the id and reports no error. *)
Lemma send_answer (c : Client) (payload : JsonRpcPayload) (wire : Wire)
    (fields : list (string * Js)) :
  fetch (url c) (timeout c) payload = Responded (JObj fields) ->
  assoc "id" fields = Some (JNum (id payload)) ->
  truthy (default JUndefined (assoc "error" fields)) = false ->
  send c payload wire
  = (Ok (default JUndefined (assoc "result" fields)), (wire ++ [(url c, payload)])%list).
Proof.
  intros Hfetch Hid Herr. unfold send, bind, exchange, liftR, throw.
  rewrite Hfetch. simpl. rewrite Hid. simpl. rewrite Z.eqb_refl. simpl.
  now rewrite Herr.
Qed.

(** *** More on [buildSender] *)

Lemma first_rejection_wins {A : Type} (promises : list (Promise A)) (i : nat)
    (p : Promise A) (e : Thrown) :
  promises !! i = Some p ->
  outcome p = Throw e ->
  (forall j q e', promises !! j = Some q -> outcome q = Throw e' ->
     ((j < i)%nat -> (settles p < settles q)%nat)
     /\ ((i < j)%nat -> (settles p <= settles q)%nat)) ->
  first_rejection promises = Some (settles p, e).
Proof.
  revert i. induction promises as [|p0 rest IH]; intros [|i] Hi Hp Hothers;
    simpl in *; try discriminate.
  - injection Hi as ->. rewrite Hp.
    destruct (first_rejection rest) as [[turn e']|] eqn:Hrest; [|reflexivity].
    destruct (first_rejection_Some _ _ _ Hrest) as (j & q & Hj & Hq & <-).
    destruct (Hothers (S j) q e' Hj Hq) as [_ Hle].
    now rewrite (proj2 (Nat.leb_le _ _) (Hle ltac:(lia))).
  - rewrite (IH i Hi Hp).
    + destruct (outcome p0) as [a|e0] eqn:Hp0; [reflexivity|].
      destruct (Hothers 0%nat p0 e0 eq_refl Hp0) as [Hlt _].
      now rewrite (proj2 (Nat.leb_gt _ _) (Hlt ltac:(lia))).
    + intros j q e' Hj Hq. destruct (Hothers (S j) q e' Hj Hq) as [Hlt Hle].
      split; intros; [apply Hlt | apply Hle]; lia.
Qed.

Lemma transformed_Throw (inTransformers : list (option AnyTransformer)) (req : list Js)
    (i : nat) (e : Thrown) :
  (i < length req `max` length inTransformers)%nat ->
  outcome (transform (arg req i) (at_index inTransformers i)) = Throw e ->
  (forall j e', (j < length req `max` length inTransformers)%nat ->
     outcome (transform (arg req j) (at_index inTransformers j)) = Throw e' ->
     ((j < i)%nat ->
        (settles (transform (arg req i) (at_index inTransformers i))
         < settles (transform (arg req j) (at_index inTransformers j)))%nat)
     /\ ((i < j)%nat ->
        (settles (transform (arg req i) (at_index inTransformers i))
         <= settles (transform (arg req j) (at_index inTransformers j)))%nat)) ->
  transformed inTransformers req = Throw e.
Proof.
  intros Hi Hthrow Hothers. unfold transformed, Promise_all.
  rewrite (first_rejection_wins _ i
             (transform (arg req i) (at_index inTransformers i)) e);
    [reflexivity | | exact Hthrow |].
  - now rewrite list_lookup_imap, (pad_lookup _ _ _ Hi).
  - intros j q e' Hj Hq. rewrite list_lookup_imap in Hj.
    destruct (pad req (length inTransformers) !! j) as [v|] eqn:Hv; [|discriminate].
    assert (Hlt : (j < length req `max` length inTransformers)%nat).
    { rewrite <- pad_length. eapply lookup_lt_Some, Hv. }
    rewrite (pad_lookup _ _ _ Hlt) in Hv. injection Hv as <-.
    simpl in Hj. injection Hj as <-. now apply (Hothers j e').
Qed.

Lemma transformed_beyond (inTransformers : list (option AnyTransformer)) (req args : list Js) :
  transformed inTransformers req = Ok args ->
  forall i, (length inTransformers <= i)%nat -> args !! i = req !! i.
Proof.
  intros Hargs i Hi. destruct (transformed_Ok _ _ _ Hargs) as [Hlen Hlookup].
  destruct (args !! i) as [v|] eqn:Hv.
  - assert (Hlt : (i < length req)%nat) by (apply lookup_lt_Some in Hv; lia).
    apply Hlookup in Hv. unfold at_index in Hv.
    rewrite (lookup_ge_None_2 inTransformers i) in Hv by lia. simpl in Hv.
    injection Hv as <-. unfold arg.
    destruct (lookup_lt_is_Some_2 req i Hlt) as [x Hx]. now rewrite Hx.
  - apply lookup_ge_None in Hv. symmetry. apply lookup_ge_None. lia.
Qed.

Lemma buildSender_sent (c : Client) (rpcMethod : string)
    (inTransformers : list (option AnyTransformer))
    (outTransformer : option AnyTransformer)
    (rnd : Q) (req : list Js) (wire : Wire) (u : string) (p : JsonRpcPayload) :
  snd (buildSender c rpcMethod inTransformers outTransformer rnd req wire)
  = (wire ++ [(u, p)])%list ->
  exists args, transformed inTransformers req = Ok args
               /\ p = buildPayload rnd rpcMethod args.
Proof.
  rewrite buildSender_wire.
  destruct (transformed inTransformers req) as [args|e]; intros H.
  - apply wire_snoc_inv in H. injection H as _ <-. now exists args.
  - now apply wire_snoc_neq in H.
Qed.

(** X4. When an input transformer rejects before every other one that
    rejects (in an earlier turn of the event loop, or ahead in argument
    order among those that throw on the spot), the sender rejects with
    what it threw and sends nothing. *)
Theorem buildSender_transformer_failure (c : Client) (rpcMethod : string)
    (inTransformers : list (option AnyTransformer))
    (outTransformer : option AnyTransformer)
    (rnd : Q) (req : list Js) (wire : Wire) (i : nat) (t : AnyTransformer)
    (e : Thrown) :
  inTransformers !! i = Some (Some t) ->
  outcome (t (arg req i)) = Throw e ->
  (forall j t' e', inTransformers !! j = Some (Some t') -> j <> i ->
     outcome (t' (arg req j)) = Throw e' ->
     (settles (t (arg req i)) < settles (t' (arg req j)))%nat
     \/ (settles (t (arg req i)) = 0%nat /\ settles (t' (arg req j)) = 0%nat
         /\ (i < j)%nat)) ->
  buildSender c rpcMethod inTransformers outTransformer rnd req wire = (Throw e, wire).
Proof.
  intros Ht Hthrow Hothers. unfold buildSender, bind, liftR.
  assert (Hi : (i < length req `max` length inTransformers)%nat).
  { pose proof (lookup_lt_Some _ _ _ Ht). unfold AnyTransformer in *. lia. }
  rewrite (transformed_Throw inTransformers req i e Hi); [reflexivity | |];
    unfold at_index, AnyTransformer in *; rewrite Ht; simpl.
  - exact Hthrow.
  - intros j e' Hj Hrej.
    destruct (inTransformers !! j) as [[t'|]|] eqn:Ht'; simpl in *; try discriminate.
    destruct (Nat.eq_dec j i) as [->|Hne]; [lia|].
    destruct (Hothers j t' e' Ht' Hne Hrej) as [Hlt|(H0 & H0' & Hij)]; lia.
Qed.

(** X5. Arguments beyond the input transformers go into the request as the
    caller gave them, and the request has no parameter beyond them. *)
Theorem buildSender_extra_args (c : Client) (rpcMethod : string)
    (inTransformers : list (option AnyTransformer))
    (outTransformer : option AnyTransformer)
    (rnd : Q) (req : list Js) (wire : Wire) (u : string) (p : JsonRpcPayload) :
  snd (buildSender c rpcMethod inTransformers outTransformer rnd req wire)
  = (wire ++ [(u, p)])%list ->
  forall i, (length inTransformers <= i)%nat -> params p !! i = req !! i.
Proof.
  intros Hsent i Hi. apply buildSender_sent in Hsent as (args & Hargs & ->).
  simpl. now apply (transformed_beyond _ _ _ Hargs).
Qed.

(** X6. The id of a request is one of 0 .. 10000, whatever the sender and
    its arguments. *)
Theorem buildSender_id_range (c : Client) (rpcMethod : string)
    (inTransformers : list (option AnyTransformer))
    (outTransformer : option AnyTransformer)
    (rnd : Q) (req : list Js) (wire : Wire) (u : string) (p : JsonRpcPayload) :
  (0 <= rnd)%Q -> (rnd < 1)%Q ->
  snd (buildSender c rpcMethod inTransformers outTransformer rnd req wire)
  = (wire ++ [(u, p)])%list ->
  0 <= id p <= 10000.
Proof.
  intros Hlo Hhi Hsent. apply buildSender_sent in Hsent as (args & _ & ->).
  now apply buildPayload_id_range.
Qed.

(** A sender against a node that echoes the id and reports no error. *)
Lemma buildSender_answer (c : Client) (rpcMethod : string)
    (inTransformers : list (option AnyTransformer))
    (outTransformer : option AnyTransformer)
    (rnd : Q) (req args : list Js) (wire : Wire) (fields : list (string * Js)) :
  transformed inTransformers req = Ok args ->
  fetch (url c) (timeout c) (buildPayload rnd rpcMethod args) = Responded (JObj fields) ->
  assoc "id" fields = Some (JNum (Math_round (double (rnd * inject_Z 10000)))) ->
  truthy (default JUndefined (assoc "error" fields)) = false ->
  buildSender c rpcMethod inTransformers outTransformer rnd req wire
  = (outcome (transform (default JUndefined (assoc "result" fields)) outTransformer),
     (wire ++ [(url c, buildPayload rnd rpcMethod args)])%list).
Proof.
  intros Hargs Hfetch Hid Herr. unfold buildSender, bind, liftR at 1.
  rewrite Hargs.
  rewrite (send_answer c _ wire fields Hfetch Hid Herr). reflexivity.
Qed.

Lemma transformed_single (f : Transformer) (x y : Js) :
  f x = Ok y -> transformed [Some (sync f)] [x] = Ok [y].
Proof.
  intros H. unfold transformed, Promise_all, fulfilled. simpl. now rewrite H.
Qed.

(** *** The three other senders *)

(** [JsonRpcTransformers.transactionFrom] and [.transactionResponseTo] of
    [./advanced], [hexFrom] of [../../hex] and [numFrom] of [../../num]. *)
Variable transactionFrom : Transformer.
Variable transactionResponseTo : Transformer.
Variable hexFrom : Transformer.
Variable numFrom : Transformer.

(** [sendTransactionNoCache = this.buildSender("send_transaction",
    [JsonRpcTransformers.transactionFrom], hexFrom)] *)
Definition sendTransactionNoCache (c : Client) : Q -> list Js -> M Wire Js :=
  buildSender c "send_transaction" [Some (sync transactionFrom)] (Some (sync hexFrom)).

(** [getTransactionNoCache = this.buildSender("get_transaction", [hexFrom],
    JsonRpcTransformers.transactionResponseTo)] *)
Definition getTransactionNoCache (c : Client) : Q -> list Js -> M Wire Js :=
  buildSender c "get_transaction" [Some (sync hexFrom)]
    (Some (sync transactionResponseTo)).

(** [getCellsCapacity = this.buildSender("get_cells_capacity",
    [JsonRpcTransformers.indexerSearchKeyFrom],
    ({ capacity }) => numFrom(capacity))] *)
Definition getCellsCapacity (c : Client) : Q -> list Js -> M Wire Js :=
  buildSender c "get_cells_capacity" [Some (sync indexerSearchKeyFrom)]
    (Some (sync (fun res => capacity <-? get res "capacity" ;; numFrom capacity))).

(** X7. The request of [sendTransactionNoCache] is a [send_transaction]
    whose first parameter is the transformed transaction; the validator
    follows as the caller gave it, and is left out when the caller gave
    none. *)
Theorem sendTransactionNoCache_params (c : Client) (rnd : Q) (req : list Js)
    (wire : Wire) (u : string) (p : JsonRpcPayload) :
  snd (sendTransactionNoCache c rnd req wire) = (wire ++ [(u, p)])%list ->
  method p = "send_transaction"
  /\ exists t, transactionFrom (arg req 0) = Ok t /\ params p = t :: drop 1 req.
Proof.
  intros Hsent. unfold sendTransactionNoCache in Hsent.
  apply buildSender_sent in Hsent as (args & Hargs & ->).
  split; [reflexivity|]. simpl.
  destruct (transformed_Ok _ _ _ Hargs) as [Hlen Hlookup]. simpl in Hlen.
  destruct args as [|t rest]; [simpl in Hlen; lia|].
  exists t. split; [exact (Hlookup 0%nat t eq_refl)|].
  f_equal. apply list_eq. intros i.
  rewrite lookup_drop.
  exact (transformed_beyond _ _ _ Hargs (S i) ltac:(simpl; lia)).
Qed.

(** X8. Against a node that echoes the id and reports no error,
    [getTransactionNoCache] asks [get_transaction] with the one parameter
    [hexFrom(txHash)] and resolves to [transactionResponseTo] of the
    [result], [undefined] if the response has none. *)
Theorem getTransactionNoCache_answer (c : Client) (rnd : Q) (txHash h : Js)
    (wire : Wire) (fields : list (string * Js)) :
  hexFrom txHash = Ok h ->
  let payload := {| id := Math_round (double (rnd * inject_Z 10000));
                    method := "get_transaction"; params := [h]; jsonrpc := "2.0" |} in
  fetch (url c) (timeout c) payload = Responded (JObj fields) ->
  assoc "id" fields = Some (JNum (id payload)) ->
  truthy (default JUndefined (assoc "error" fields)) = false ->
  getTransactionNoCache c rnd [txHash] wire
  = (transactionResponseTo (default JUndefined (assoc "result" fields)),
     (wire ++ [(url c, payload)])%list).
Proof.
  intros Hhex payload Hfetch Hid Herr. unfold getTransactionNoCache.
  exact (buildSender_answer c _ _ _ rnd _ _ wire fields
           (transformed_single _ _ _ Hhex) Hfetch Hid Herr).
Qed.

(** X9. [getCellsCapacity] resolves to [numFrom] of the [capacity] of the
    result when the result is an object; on a [null] result, or a response
    with no result, destructuring throws a [TypeError] after the request
    went out. *)
Theorem getCellsCapacity_answer (c : Client) (rnd : Q) (key k : Js)
    (wire : Wire) (fields : list (string * Js)) :
  indexerSearchKeyFrom key = Ok k ->
  let payload := {| id := Math_round (double (rnd * inject_Z 10000));
                    method := "get_cells_capacity"; params := [k]; jsonrpc := "2.0" |} in
  fetch (url c) (timeout c) payload = Responded (JObj fields) ->
  assoc "id" fields = Some (JNum (id payload)) ->
  truthy (default JUndefined (assoc "error" fields)) = false ->
  (forall result_fields, assoc "result" fields = Some (JObj result_fields) ->
     getCellsCapacity c rnd [key] wire
     = (numFrom (default JUndefined (assoc "capacity" result_fields)),
        (wire ++ [(url c, payload)])%list))
  /\ (assoc "result" fields = Some JNull \/ assoc "result" fields = None ->
     getCellsCapacity c rnd [key] wire
     = (Throw ThrowTypeError, (wire ++ [(url c, payload)])%list)).
Proof.
  intros Hkey payload Hfetch Hid Herr. unfold getCellsCapacity.
  rewrite (buildSender_answer c _ _ _ rnd _ _ wire fields
             (transformed_single _ _ _ Hkey) Hfetch Hid Herr).
  split.
  - intros result_fields ->. reflexivity.
  - intros [-> | ->]; reflexivity.
Qed.

(** *** More on [findCellsPagedNoCache] *)

(** X10. The request of [findCellsPagedNoCache] opens with the transformed
    search key and carries the cursor [after] as its fourth parameter just
    as the caller gave it; with no cursor given it has three parameters. *)
Theorem findCellsPagedNoCache_cursor (c : Client) (rnd : Q) (req : list Js)
    (wire : Wire) (u : string) (p : JsonRpcPayload) :
  snd (findCellsPagedNoCache c rnd req wire) = (wire ++ [(u, p)])%list ->
  (exists k, indexerSearchKeyFrom (arg req 0) = Ok k /\ params p !! 0%nat = Some k)
  /\ params p !! 3%nat = req !! 3%nat
  /\ length (params p) = (length req `max` 3)%nat.
Proof.
  intros Hsent. unfold findCellsPagedNoCache in Hsent.
  apply buildSender_sent in Hsent as (args & Hargs & ->). simpl.
  destruct (transformed_Ok _ _ _ Hargs) as [Hlen Hlookup]. simpl in Hlen.
  split; [|split; [|exact Hlen]].
  - destruct (lookup_lt_is_Some_2 args 0) as [k Hk]; [lia|].
    exists k. split; [exact (Hlookup _ _ Hk) | exact Hk].
  - exact (transformed_beyond _ _ _ Hargs 3%nat ltac:(simpl; lia)).
Qed.

(** X11. [??] takes [null] like a missing argument: an [order] of [null]
    goes out as ["asc"], a [limit] of [null] as [numToHex(10)]. *)
Theorem findCellsPagedNoCache_null (c : Client) (rnd : Q) (req : list Js)
    (wire : Wire) (u : string) (p : JsonRpcPayload) :
  snd (findCellsPagedNoCache c rnd req wire) = (wire ++ [(u, p)])%list ->
  (arg req 1 = JNull -> params p !! 1%nat = Some (JStr "asc"))
  /\ (arg req 2 = JNull ->
      exists h, numToHex (JNum 10) = Ok h /\ params p !! 2%nat = Some (JStr h)).
Proof.
  intros Hsent. unfold findCellsPagedNoCache in Hsent.
  apply buildSender_sent in Hsent as (args & Hargs & ->). simpl.
  destruct (transformed_Ok _ _ _ Hargs) as [Hlen Hlookup]. simpl in Hlen.
  destruct (lookup_lt_is_Some_2 args 1) as [order Horder]; [lia|].
  destruct (lookup_lt_is_Some_2 args 2) as [limit Hlimit]; [lia|].
  pose proof (Hlookup _ _ Horder) as H1. simpl in H1. injection H1 as H1.
  pose proof (Hlookup _ _ Hlimit) as H2. simpl in H2.
  split.
  - intros E. rewrite E in H1. simpl in H1. now rewrite Horder, <- H1.
  - intros E. rewrite E in H2. simpl in H2.
    destruct (numToHex (JNum 10)) as [h|e]; simpl in H2; [|discriminate].
    injection H2 as <-. now exists h.
Qed.

(** X12. A search key or a limit that cannot be transformed stops the call
    before anything is sent; of the two, the search key's error wins. *)
Theorem findCellsPagedNoCache_rejects_early (c : Client) (rnd : Q) (req : list Js)
    (wire : Wire) (e : Thrown) :
  (indexerSearchKeyFrom (arg req 0) = Throw e ->
     findCellsPagedNoCache c rnd req wire = (Throw e, wire))
  /\ (is_Ok (indexerSearchKeyFrom (arg req 0)) ->
      numToHex (nullish (arg req 2) (JNum 10)) = Throw e ->
      findCellsPagedNoCache c rnd req wire = (Throw e, wire)).
Proof.
  unfold findCellsPagedNoCache, buildSender, bind, liftR. split.
  - intros Hkey. rewrite (transformed_Throw _ req 0%nat e); [reflexivity| | |].
    + simpl. lia.
    + exact Hkey.
    + intros j e' _ Hrej. split; intros Hj; [lia|]. simpl. lia.
  - intros [k Hkey] Hlimit.
    rewrite (transformed_Throw _ req 2%nat e); [reflexivity| | |].
    + simpl. lia.
    + simpl. now rewrite Hlimit.
    + intros [|[|[|j]]] e' _ Hrej; simpl in *; try discriminate; try lia.
      congruence.
Qed.

End WithTransport.

(** *** The abort timer *)

(** When a phase of the exchange ends, in milliseconds from the call, and
    how: with a value, with a failure, or never. *)
Inductive Phase (A : Type) : Type :=
| Completes (at_ms : Z) (a : A)
| Breaks (at_ms : Z) (e : Thrown)
| Stalls.
Arguments Completes {A} at_ms a.
Arguments Breaks {A} at_ms e.
Arguments Stalls {A}.

(** The two awaits of [send] against the clock: [head] is the promise of
    [fetch] (the response and its headers), [body] that of [raw.json()];
    [on_abort] is what [fetch] rejects with when its signal aborts. *)
Record Timing : Type := {
  head : Phase unit;
  body : Phase Js;
  on_abort : Thrown;
}.

Inductive Settlement : Type :=
| SettlesAt (ms : Z) (r : Result Js)
| NeverSettles.

Section WithClock.

Variable Number_toString : Z -> string.

(** Lines 178 to 191 of [send]: the timer is armed with [this.timeout]
    before [fetch] is called and aborts the request when it fires; it is
    cleared as soon as [fetch] has resolved, so [raw.json()] is awaited
    with no timer running. *)
Definition exchange_timed (timeout : Z) (s : Timing) : option (Z * Exchange) :=
  match head s with
  | Completes h _ =>
      if h <? timeout then
        match body s with
        | Completes b res => Some (b, Responded res)
        | Breaks b e => Some (b, BodyRejected e)
        | Stalls => None
        end
      else Some (timeout, FetchRejected (on_abort s))
  | Breaks h e =>
      if h <? timeout then Some (h, FetchRejected e)
      else Some (timeout, FetchRejected (on_abort s))
  | Stalls => Some (timeout, FetchRejected (on_abort s))
  end.

(** [send], with the time at which the call settles. *)
Definition send_timed (c : Client) (payload : JsonRpcPayload) (s : Timing) : Settlement :=
  match exchange_timed (timeout c) s with
  | Some (ms, x) => SettlesAt ms (fst (send (fun _ _ _ => x) Number_toString c payload []))
  | None => NeverSettles
  end.


End WithClock.

End ClientJsonRpc.

(** ** Running the client against three scripted nodes *)

Module ClientDemo.
Import ClientJsonRpc.

Definition client : Client := new_ClientJsonRpc "https://testnet.ckb.dev/" None.

Definition numToHex (v : Js) : Result string :=
  match v with
  | JNum n => Ok (HexString.of_Z n)
  | _ => Throw (ThrowError "Invalid number")
  end.

(** A node that echoes the id and answers with an empty page. *)
Definition echo_node (_ : string) (_ : Z) (p : JsonRpcPayload) : Exchange :=
  Responded (JObj [("jsonrpc", JStr "2.0"); ("id", JNum (id p));
                   ("result", JObj [("objects", JArr []); ("last_cursor", JStr "0x")])]).

(** A node that answers everything under id 7. *)
Definition stray_node (_ : string) (_ : Z) (_ : JsonRpcPayload) : Exchange :=
  Responded (JObj [("jsonrpc", JStr "2.0"); ("id", JNum 7); ("result", JStr "0xabc")]).

(** A node that rejects everything. *)
Definition refusing_node (_ : string) (_ : Z) (p : JsonRpcPayload) : Exchange :=
  Responded (JObj [("jsonrpc", JStr "2.0"); ("id", JNum (id p));
                   ("error", JObj [("code", JNum (-301));
                                   ("message", JStr "TransactionFailedToResolve")])]).

Definition payload3 : JsonRpcPayload :=
  {| id := 3; method := "get_tip_block_number"; params := []; jsonrpc := "2.0" |}.

Definition get_cells (node : string -> Z -> JsonRpcPayload -> Exchange)
  : Q -> list Js -> M Wire Js :=
  findCellsPagedNoCache node pretty Ok Ok numToHex client.

Definition default_page : JsonRpcPayload :=
  {| id := 5000; method := "get_cells";
     params := [JObj [("script_type", JStr "lock")]; JStr "asc"; JStr "0xa"];
     jsonrpc := "2.0" |}.

End ClientDemo.

Example default_timeout : ClientJsonRpc.timeout ClientDemo.client = 30000.
Proof. reflexivity. Qed.

Example id_at_a_tie :
  ClientJsonRpc.id (ClientJsonRpc.buildPayload (ClientJsonRpc.double (50005 # 100000))
                      "get_cells" [])
  = 5001.
Proof. vm_compute. reflexivity. Qed.

Example get_cells_defaults :
  ClientDemo.get_cells ClientDemo.echo_node (1 # 2)
    [JObj [("script_type", JStr "lock")]] []
  = (Ok (JObj [("objects", JArr []); ("last_cursor", JStr "0x")]),
     [("https://testnet.ckb.dev/", ClientDemo.default_page)]).
Proof. reflexivity. Qed.

Example get_cells_explicit :
  snd (ClientDemo.get_cells ClientDemo.echo_node (1 # 2)
         [JObj []; JStr "desc"; JNum 100; JStr "0xfeed"] [])
  = [("https://testnet.ckb.dev/",
      {| ClientJsonRpc.id := 5000; ClientJsonRpc.method := "get_cells";
         ClientJsonRpc.params := [JObj []; JStr "desc"; JStr "0x64"; JStr "0xfeed"];
         ClientJsonRpc.jsonrpc := "2.0" |})].
Proof. reflexivity. Qed.



(** A response with the id sent and an error field of [0], as in the body
    [{"jsonrpc":"2.0","id":3,"error":0,"result":"0xabc"}]: [send] does not
    fail, it resolves to the result. *)
Lemma send_matching_id_counterexample :
  let node (_ : string) (_ : Z) (_ : ClientJsonRpc.JsonRpcPayload) :=
    ClientJsonRpc.Responded
      (JObj [("jsonrpc", JStr "2.0"); ("id", JNum 3); ("error", JNum 0);
             ("result", JStr "0xabc")]) in
  ClientJsonRpc.send node pretty ClientDemo.client ClientDemo.payload3 []
  = (Ok (JStr "0xabc"), [("https://testnet.ckb.dev/", ClientDemo.payload3)]).
Proof. reflexivity. Qed.



Lemma buildSender_payload_witness :
  exists sent : ClientJsonRpc.Wire,
    snd (ClientDemo.get_cells ClientDemo.echo_node (1 # 2)
           [JObj [("script_type", JStr "lock")]] []) = ([] ++ sent)%list
    /\ length sent = 1%nat
    /\ forall u p, In (u, p) sent ->
         ClientJsonRpc.jsonrpc p = "2.0"
         /\ ClientJsonRpc.method p = "get_cells"
         /\ 0 <= ClientJsonRpc.id p <= 10000
         /\ length (ClientJsonRpc.params p) = 3%nat
         /\ ClientJsonRpc.params p !! 1%nat = Some (JStr "asc").
Proof.
  destruct (ClientJsonRpc.buildSender_payload ClientDemo.echo_node pretty
              ClientDemo.client "get_cells"
              [Some (ClientJsonRpc.sync Ok);
               Some (ClientJsonRpc.sync (fun order => Ok (nullish order (JStr "asc"))));
               Some (ClientJsonRpc.sync
                       (fun limit => bindR (ClientDemo.numToHex (nullish limit (JNum 10)))
                                       (fun h => Ok (JStr h))))]
              (Some (ClientJsonRpc.sync Ok)) (1 # 2)
              [JObj [("script_type", JStr "lock")]] [])
    as (_ & sent & Hsent & _ & Hform & Htotal); [discriminate | reflexivity |].
  exists sent. split; [exact Hsent|]. split.
  - apply Htotal. intros [|[|[|i]]] t [= <-]; now eexists.
  - intros u p Hin.
    destruct (Hform u p Hin) as (_ & Hj & Hm & Hid & Hlen & Hwith & _).
    repeat (split; [assumption|]).
    destruct (Hwith 1%nat _ eq_refl) as (v & Hv & ->). simpl in Hv. congruence.
Defined.

Lemma send_matching_id_witness :
  ClientJsonRpc.send ClientDemo.refusing_node pretty ClientDemo.client ClientDemo.payload3 []
  = (Throw (ThrowValue (JObj [("code", JNum (-301));
                              ("message", JStr "TransactionFailedToResolve")])),
     [("https://testnet.ckb.dev/", ClientDemo.payload3)]).
Proof.
  refine (proj1 (ClientJsonRpc.send_matching_id ClientDemo.refusing_node pretty
                   ClientDemo.client ClientDemo.payload3 []
                   [("jsonrpc", JStr "2.0"); ("id", JNum 3);
                    ("error", JObj [("code", JNum (-301));
                                    ("message", JStr "TransactionFailedToResolve")])]
                   _ _) _); reflexivity.
Defined.

Lemma findCellsPagedNoCache_defaults_witness :
  ClientJsonRpc.params ClientDemo.default_page !! 1%nat = Some (JStr "asc")
  /\ exists h, ClientDemo.numToHex (JNum 10) = Ok h
               /\ ClientJsonRpc.params ClientDemo.default_page !! 2%nat = Some (JStr h).
Proof.
  pose proof (ClientJsonRpc.findCellsPagedNoCache_defaults ClientDemo.echo_node pretty
                Ok Ok ClientDemo.numToHex ClientDemo.client (1 # 2)
                [JObj [("script_type", JStr "lock")]] []
                "https://testnet.ckb.dev/" ClientDemo.default_page eq_refl)
    as (_ & _ & Horder & _ & _ & Hlimit & _).
  split; [apply Horder | apply Hlimit]; reflexivity.
Defined.

(** ** SignerBtc *)

Module SignerBtc.

Local Open Scope js_scope.

(** *** The domain model *)

(** Modelled from the spec: the classes of [../../ckb] and the enumeration
    [KnownScript] of [../../client] are imported by the signer but are not
    among the sources; section 3 of the specification lists their
    fields, and the demo application names the known scripts. *)
Inductive HashType : Type := HashData | HashType_ | HashData1 | HashData2.

Record Script : Type := {
  codeHash : Bytes;
  hashType : HashType;
  args : Bytes;
}.

Record OutPoint : Type := {
  txHash : Bytes;
  index : Z;
}.

Inductive DepType : Type := Code | DepGroup.

Record CellDep : Type := {
  outPoint : OutPoint;
  depType : DepType;
}.

Record CellInput : Type := {
  previousOutput : OutPoint;
  since : Z;
}.

Record CellOutput : Type := {
  capacity : Z;
  output_lock : Script;
  output_type : option Script;
}.

Record WitnessArgs : Type := {
  lock : option Bytes;
  inputType : option Bytes;
  outputType : option Bytes;
}.

Record Transaction : Type := {
  version : Z;
  cellDeps : list CellDep;
  headerDeps : list Bytes;
  inputs : list CellInput;
  outputs : list CellOutput;
  outputsData : list Bytes;
  witnesses : list Bytes;
}.

Inductive KnownScript : Type :=
| OmniLock | XUdt | TypeId | SingleUseLock | OutputTypeProxyLock.

(** What [tx.getSignHashInfo] resolves to when the signer has something to
    sign: the digest, as the hex text it is printed in, and the index of
    the witness that takes the signature. *)
Record SignHashInfo : Type := {
  message : string;
  position : nat;
}.

(** *** The world a signer runs in *)

(** [Transaction] objects live in a store and are passed by reference. *)
Definition loc : Type := positive.

(** The calls made to the two collaborators whose arguments matter here:
    the wallet, and the placeholder-witness routine of [Transaction]. *)
Inductive Call : Type :=
| signMessageRaw_call (text : string)
| prepareSighashAllWitness_call (script : Script) (lockLen : nat).

Record World : Type := {
  heap : gmap loc Transaction;
  trace : list Call;
}.

(** Reading the fields of an object, and writing them back. *)
Definition read (tx : loc) : M World Transaction :=
  fun w => match heap w !! tx with
           | Some t => (Ok t, w)
           | None => (Throw ThrowTypeError, w)
           end.

Definition write (tx : loc) (t : Transaction) : M World unit :=
  fun w => (Ok tt, {| heap := <[tx := t]> (heap w); trace := trace w |}).

Definition record (call : Call) : M World unit :=
  fun w => (Ok tt, {| heap := heap w; trace := (trace w ++ [call])%list |}).

(** Modelled from the spec: [bytesConcat] of [../../bytes] is not among the
    sources; the multi-field envelope of section 4.5 is its fields one
    after the other. *)
Definition bytesConcat (parts : list Bytes) : Bytes := concat parts.

Section WithCollaborators.

(** [Transaction.from], of [../../ckb]: from whatever the caller passed to
    a [Transaction] object in the store. Whether that is the caller's own
    object or a new one is up to it. *)
Variable TransactionLike : Type.
Variable Transaction_from : TransactionLike -> M World loc.

(** [this.getRecommendedAddressObj()], of the [Signer] base class, reduced
    to the lock script the caller reads from it. *)
Variable getRecommendedAddressObj : Result Script.

(** [tx.getSignHashInfo(script, this.client)], of [../../ckb]: nothing when
    no input of the transaction is locked by [script]. *)
Variable getSignHashInfo : Script -> Transaction -> Result (option SignHashInfo).

(** [this.signMessageRaw], abstract in [SignerBtc]: the wallet, answering
    in base64. *)
Variable signMessageRaw : string -> Result string.

(** [bytesFrom(_, "base64")] and [numToBytes], of [../../bytes] and
    [../../num]. *)
Variable bytesFrom_base64 : string -> Bytes.
Variable numToBytes : Z -> nat -> Bytes.

(** [WitnessArgs.fromBytes] and the [toBytes] that [setWitnessArgsAt] uses,
    of [../../ckb]; the argument of the first is [undefined] when the
    transaction has no witness at the index read. *)
Variable WitnessArgs_fromBytes : option Bytes -> Result WitnessArgs.
Variable WitnessArgs_toBytes : WitnessArgs -> Bytes.

(** [tx.addCellDepsOfKnownScripts(this.client, ...)] and
    [tx.prepareSighashAllWitness(script, lockLen, this.client)], of
    [../../ckb], as what they make of the fields of [tx]. *)
Variable addCellDepsOfKnownScripts : KnownScript -> Transaction -> Result Transaction.
Variable prepareSighashAllWitness : Script -> nat -> Transaction -> Result Transaction.

(** Modelled from the spec: [Transaction.setWitnessArgsAt] of [../../ckb]
    is not among the sources; section 4.5 has the packed signature written
    "into the prepared witness slot": the encoding of the witness takes the
    place of the entry at [index], the list being first extended with empty
    witnesses when it has no such entry. *)
Definition setWitnessArgsAt (index : nat) (witness : WitnessArgs) (t : Transaction)
  : Transaction :=
  {| version := version t;
     cellDeps := cellDeps t;
     headerDeps := headerDeps t;
     inputs := inputs t;
     outputs := outputs t;
     outputsData := outputsData t;
     witnesses :=
       <[index := WitnessArgs_toBytes witness]>
         (witnesses t ++ replicate (S index - length (witnesses t)) [])%list |}.

(** [prepareTransaction(txLike)] *)
Definition prepareTransaction (txLike : TransactionLike) : M World loc :=
  tx <- Transaction_from txLike ;;
  script <- liftR getRecommendedAddressObj ;;
  t <- read tx ;;
  t <- liftR (addCellDepsOfKnownScripts OmniLock t) ;;
  _ <- write tx t ;;
  _ <- record (prepareSighashAllWitness_call script 85) ;;
  t <- liftR (prepareSighashAllWitness script 85 t) ;;
  _ <- write tx t ;;
  ret tx.

(** [signature[0] = 31 + ((signature[0] - 27) % 4)], on a [Uint8Array];
    [%] takes the sign of the dividend, and an empty array stays empty. *)
Definition adjust_recovery_id (signature : Bytes) : Bytes :=
  match signature with
  | [] => []
  | b :: rest => byte_of_Z (31 + Z.rem (Z_of_byte b - 27) 4) :: rest
  end.

(** The value assigned to [witness.lock]. *)
Definition envelope (signature : Bytes) : Bytes :=
  bytesConcat
    [ numToBytes (5 * 4 + Z.of_nat (length signature)) 4;
      numToBytes (4 * 4) 4;
      numToBytes (5 * 4 + Z.of_nat (length signature)) 4;
      numToBytes (5 * 4 + Z.of_nat (length signature)) 4;
      numToBytes (Z.of_nat (length signature)) 4;
      signature ].

(** The text handed to the wallet. *)
Definition signing_text (info : SignHashInfo) : string :=
  "CKB (Bitcoin Layer) transaction: " ++ message info.

(** [signOnlyTransaction(txLike)] *)
Definition signOnlyTransaction (txLike : TransactionLike) : M World loc :=
  tx <- Transaction_from txLike ;;
  script <- liftR getRecommendedAddressObj ;;
  t <- read tx ;;
  info <- liftR (getSignHashInfo script t) ;;
  match info with
  | None => ret tx
  | Some info =>
      _ <- record (signMessageRaw_call (signing_text info)) ;;
      raw <- liftR (signMessageRaw (signing_text info)) ;;
      let signature := adjust_recovery_id (bytesFrom_base64 raw) in
      t <- read tx ;;
      witness <- liftR (WitnessArgs_fromBytes (witnesses t !! position info)) ;;
      let witness :=
        {| lock := Some (envelope signature);
           inputType := inputType witness;
           outputType := outputType witness |} in
      t <- read tx ;;
      _ <- write tx (setWitnessArgsAt (position info) witness t) ;;
      ret tx
  end.

(** *** Signing *)

Lemma string_length_app (a b : string) :
  String.length (a ++ b) = (String.length a + String.length b)%nat.
Proof. induction a as [|ch a IH]; simpl; [reflexivity | now rewrite IH]. Qed.

Lemma signing_text_not_bare (info : SignHashInfo) : signing_text info <> message info.
Proof.
  intros H. apply (f_equal String.length) in H.
  unfold signing_text in H. rewrite string_length_app in H. simpl in H. lia.
Qed.

Lemma adjust_recovery_id_length (signature : Bytes) :
  length (adjust_recovery_id signature) = length signature.
Proof. now destruct signature. Qed.

(** The adjusted first byte is one of 28 .. 34, whatever the wallet sent. *)
Lemma adjust_recovery_id_range (b : byte) (rest : Bytes) :
  exists b', adjust_recovery_id (b :: rest) = b' :: rest /\ 28 <= Z_of_byte b' <= 34.
Proof.
  destruct b; (eexists; split; [reflexivity | vm_compute; split; discriminate]).
Qed.

(** The run of [signOnlyTransaction] once [Transaction.from] has answered. *)
Lemma signOnlyTransaction_run (txLike : TransactionLike) (w0 w1 : World)
    (tx : loc) (t : Transaction) (script : Script) :
  Transaction_from txLike w0 = (Ok tx, w1) ->
  heap w1 !! tx = Some t ->
  getRecommendedAddressObj = Ok script ->
  signOnlyTransaction txLike w0
  = match getSignHashInfo script t with
    | Throw e => (Throw e, w1)
    | Ok None => (Ok tx, w1)
    | Ok (Some info) =>
        let w2 := {| heap := heap w1;
                     trace := (trace w1 ++ [signMessageRaw_call (signing_text info)])%list |} in
        match signMessageRaw (signing_text info) with
        | Throw e => (Throw e, w2)
        | Ok raw =>
            match WitnessArgs_fromBytes (witnesses t !! position info) with
            | Throw e => (Throw e, w2)
            | Ok witness =>
                (Ok tx,
                 {| heap :=
                      <[tx := setWitnessArgsAt (position info)
                                {| lock := Some (envelope
                                                   (adjust_recovery_id (bytesFrom_base64 raw)));
                                   inputType := inputType witness;
                                   outputType := outputType witness |} t]> (heap w1);
                    trace := trace w2 |})
            end
        end
    end.
Proof.
  intros Hfrom Ht Haddr.
  unfold signOnlyTransaction, bind, liftR, read, write, record, ret.
  rewrite Hfrom, Haddr, Ht.
  destruct (getSignHashInfo script t) as [[info|]|e]; try reflexivity.
  simpl. destruct (signMessageRaw (signing_text info)) as [raw|e]; [|reflexivity].
  simpl. rewrite Ht.
  destruct (WitnessArgs_fromBytes (witnesses t !! position info)) as [witness|e];
    [|reflexivity].
  simpl. now rewrite Ht.
Qed.

(** A call that fails has written to no transaction. *)
Lemma signOnlyTransaction_failure (txLike : TransactionLike) (w0 w1 : World)
    (tx : loc) (t : Transaction) (script : Script) (e : Thrown) :
  Transaction_from txLike w0 = (Ok tx, w1) ->
  heap w1 !! tx = Some t ->
  getRecommendedAddressObj = Ok script ->
  fst (signOnlyTransaction txLike w0) = Throw e ->
  heap (snd (signOnlyTransaction txLike w0)) = heap w1.
Proof.
  intros Hfrom Ht Haddr. rewrite (signOnlyTransaction_run _ _ _ _ _ _ Hfrom Ht Haddr).
  destruct (getSignHashInfo script t) as [[info|]|e']; simpl; try reflexivity.
  destruct (signMessageRaw (signing_text info)); simpl; try reflexivity.
  destruct (WitnessArgs_fromBytes (witnesses t !! position info)); simpl;
    [discriminate | reflexivity].
Qed.

(** C1. Signer no-op law: when the sighash lookup for the signer's lock
    script finds nothing, [signOnlyTransaction] returns the transaction it
    got from [Transaction.from] and leaves the world as that call left it:
    the transaction has the fields it had, no other object has changed and
    the wallet was not asked. *)
Theorem signOnlyTransaction_noop (txLike : TransactionLike) (w0 w1 : World)
    (tx : loc) (t : Transaction) (script : Script) :
  Transaction_from txLike w0 = (Ok tx, w1) ->
  heap w1 !! tx = Some t ->
  getRecommendedAddressObj = Ok script ->
  getSignHashInfo script t = Ok None ->
  signOnlyTransaction txLike w0 = (Ok tx, w1)
  /\ heap (snd (signOnlyTransaction txLike w0)) !! tx = Some t
  /\ trace (snd (signOnlyTransaction txLike w0)) = trace w1.
Proof.
  intros Hfrom Ht Haddr Hinfo.
  rewrite (signOnlyTransaction_run _ _ _ _ _ _ Hfrom Ht Haddr), Hinfo.
  simpl. auto.
Qed.


(** *** The size of the signature envelope *)

Lemma envelope_length (signature : Bytes) :
  (forall n, 0 <= n < 2 ^ 32 -> length (numToBytes n 4) = 4%nat) ->
  Z.of_nat (length signature) < 2 ^ 32 - 20 ->
  length (envelope signature) = (5 * 4 + length signature)%nat.
Proof.
  intros Hfour Hfit. unfold envelope, bytesConcat.
  rewrite length_concat. simpl.
  rewrite !Hfour by lia. lia.
Qed.

(** The run of [prepareTransaction] up to the placeholder routine. *)
Lemma prepareTransaction_trace (txLike : TransactionLike) (w0 w1 : World)
    (tx : loc) (t t1 : Transaction) (script : Script) :
  Transaction_from txLike w0 = (Ok tx, w1) ->
  heap w1 !! tx = Some t ->
  getRecommendedAddressObj = Ok script ->
  addCellDepsOfKnownScripts OmniLock t = Ok t1 ->
  trace (snd (prepareTransaction txLike w0))
  = (trace w1 ++ [prepareSighashAllWitness_call script 85])%list.
Proof.
  intros Hfrom Ht Haddr Hdeps.
  unfold prepareTransaction, bind, liftR, read, write, record, ret.
  rewrite Hfrom, Haddr, Ht, Hdeps. simpl.
  destruct (prepareSighashAllWitness script 85 t1); reflexivity.
Qed.

Lemma setWitnessArgsAt_lookup (i : nat) (witness : WitnessArgs) (t : Transaction) :
  witnesses (setWitnessArgsAt i witness t) !! i = Some (WitnessArgs_toBytes witness).
Proof.
  unfold setWitnessArgsAt. simpl. apply list_lookup_insert_eq.
  rewrite length_app, length_replicate. lia.
Qed.


(** *** What signing changes *)

Lemma setWitnessArgsAt_witnesses (i : nat) (witness : WitnessArgs) (t : Transaction) :
  (i < length (witnesses t))%nat ->
  witnesses (setWitnessArgsAt i witness t)
  = <[i := WitnessArgs_toBytes witness]> (witnesses t).
Proof.
  intros Hi. unfold setWitnessArgsAt. simpl.
  replace (S i - length (witnesses t))%nat with 0%nat by lia.
  simpl. now rewrite app_nil_r.
Qed.

(** X21. The frame of a signing run: when there is a digest to sign, the wallet
    signs and the witness slot is there and decodes, [signOnlyTransaction]
    returns the object of [Transaction.from] with one change to its fields:
    the witness at the sighash position is re-encoded with the envelope as
    its lock and its two other fields kept. The other witnesses, their
    number and the six other fields of the transaction are as they were,
    and so is every other object of the store; hence whatever the caller
    holds is left as it was whenever [Transaction.from] answered with an
    object of its own making. *)
Theorem signOnlyTransaction_frame (txLike : TransactionLike) (w0 w1 : World)
    (tx : loc) (t : Transaction) (script : Script) (info : SignHashInfo)
    (raw : string) (slot : Bytes) (witness : WitnessArgs) :
  Transaction_from txLike w0 = (Ok tx, w1) ->
  heap w1 !! tx = Some t ->
  getRecommendedAddressObj = Ok script ->
  getSignHashInfo script t = Ok (Some info) ->
  signMessageRaw (signing_text info) = Ok raw ->
  witnesses t !! position info = Some slot ->
  WitnessArgs_fromBytes (Some slot) = Ok witness ->
  let signed :=
    {| lock := Some (envelope (adjust_recovery_id (bytesFrom_base64 raw)));
       inputType := inputType witness;
       outputType := outputType witness |} in
  WitnessArgs_fromBytes (Some (WitnessArgs_toBytes signed)) = Ok signed ->
  exists (t' : Transaction) (w' : World),
    signOnlyTransaction txLike w0 = (Ok tx, w')
    /\ heap w' !! tx = Some t'
    /\ version t' = version t
    /\ cellDeps t' = cellDeps t
    /\ headerDeps t' = headerDeps t
    /\ inputs t' = inputs t
    /\ outputs t' = outputs t
    /\ outputsData t' = outputsData t
    /\ length (witnesses t') = length (witnesses t)
    /\ (forall i, i <> position info -> witnesses t' !! i = witnesses t !! i)
    /\ WitnessArgs_fromBytes (witnesses t' !! position info) = Ok signed
    /\ inputType signed = inputType witness
    /\ outputType signed = outputType witness
    /\ (forall other, other <> tx -> heap w' !! other = heap w1 !! other)
    /\ (heap w0 !! tx = None ->
        (forall held t0, heap w0 !! held = Some t0 -> heap w1 !! held = Some t0) ->
        forall held t0, heap w0 !! held = Some t0 -> heap w' !! held = Some t0).
Proof.
  intros Hfrom Ht Haddr Hinfo Hsig Hslot Hdec signed Hround.
  assert (Hpos : (position info < length (witnesses t))%nat)
    by (eapply lookup_lt_Some, Hslot).
  eexists. eexists.
  split.
  { rewrite (signOnlyTransaction_run _ _ _ _ _ _ Hfrom Ht Haddr), Hinfo.
    simpl. rewrite Hsig, Hslot, Hdec. reflexivity. }
  simpl. fold signed.
  split; [apply lookup_insert_eq|].
  do 6 (split; [reflexivity|]).
  rewrite setWitnessArgsAt_witnesses by exact Hpos.
  split; [apply length_insert|].
  split; [intros i Hi; now apply list_lookup_insert_ne|].
  split; [now rewrite list_lookup_insert_eq by exact Hpos|].
  do 2 (split; [reflexivity|]).
  split; [intros other Hother; now apply lookup_insert_ne|].
  intros Hfresh Hkept held t0 Hheld.
  rewrite lookup_insert_ne; [now apply Hkept|].
  intros ->. congruence.
Qed.

(** C7. [signOnlyTransaction] writes in place, on the object that
    [Transaction.from] hands it. When that is the caller's own object (as
    for a caller who passes a [Transaction]), the caller's object is not
    left as it was: after the call it holds the signed witness at the
    sighash position, where it held the prepared one. *)
Theorem signOnlyTransaction_in_place (txLike : TransactionLike) (w0 : World)
    (tx : loc) (t : Transaction) (script : Script) (info : SignHashInfo)
    (raw : string) (slot : Bytes) (witness : WitnessArgs) :
  Transaction_from txLike w0 = (Ok tx, w0) ->
  heap w0 !! tx = Some t ->
  getRecommendedAddressObj = Ok script ->
  getSignHashInfo script t = Ok (Some info) ->
  signMessageRaw (signing_text info) = Ok raw ->
  witnesses t !! position info = Some slot ->
  WitnessArgs_fromBytes (Some slot) = Ok witness ->
  let signed :=
    {| lock := Some (envelope (adjust_recovery_id (bytesFrom_base64 raw)));
       inputType := inputType witness;
       outputType := outputType witness |} in
  WitnessArgs_toBytes signed <> slot ->
  exists (t' : Transaction) (w' : World),
    signOnlyTransaction txLike w0 = (Ok tx, w')
    /\ heap w' !! tx = Some t'
    /\ witnesses t' !! position info = Some (WitnessArgs_toBytes signed)
    /\ t' <> t
    /\ heap w' !! tx <> heap w0 !! tx.
Proof.
  intros Hfrom Ht Haddr Hinfo Hsig Hslot Hdec signed Hnew.
  eexists. eexists. split.
  { rewrite (signOnlyTransaction_run _ _ _ _ _ _ Hfrom Ht Haddr), Hinfo.
    simpl. rewrite Hsig, Hslot, Hdec. reflexivity. }
  simpl. fold signed.
  assert (Hdiff : setWitnessArgsAt (position info) signed t <> t).
  { intros E. apply (f_equal (fun x => witnesses x !! position info)) in E.
    rewrite setWitnessArgsAt_lookup, Hslot in E. congruence. }
  split; [apply lookup_insert_eq|].
  split; [apply setWitnessArgsAt_lookup|].
  split; [exact Hdiff|].
  rewrite lookup_insert_eq, Ht. congruence.
Qed.

(** *** Failures of [signOnlyTransaction] *)

(** X14. A call of [signOnlyTransaction] that fails has written to no
    transaction: the store is as [Transaction.from] left it, and when
    [Transaction.from] itself fails, so is the whole world. *)
Theorem signOnlyTransaction_failure_frame (txLike : TransactionLike) (w0 : World) :
  (forall e w1, Transaction_from txLike w0 = (Throw e, w1) ->
     signOnlyTransaction txLike w0 = (Throw e, w1))
  /\ (forall tx w1 e, Transaction_from txLike w0 = (Ok tx, w1) ->
      fst (signOnlyTransaction txLike w0) = Throw e ->
      heap (snd (signOnlyTransaction txLike w0)) = heap w1).
Proof.
  split.
  - intros e w1 Hfrom. unfold signOnlyTransaction, bind. now rewrite Hfrom.
  - intros tx w1 e Hfrom.
    unfold signOnlyTransaction, bind, liftR, read, write, record, ret.
    rewrite Hfrom.
    destruct getRecommendedAddressObj as [script|e0]; [|reflexivity].
    destruct (heap w1 !! tx) as [t|] eqn:Ht; [|reflexivity].
    destruct (getSignHashInfo script t) as [[info|]|e0]; simpl; try reflexivity.
    destruct (signMessageRaw (signing_text info)) as [raw|e0]; simpl; [|reflexivity].
    rewrite Ht.
    destruct (WitnessArgs_fromBytes (witnesses t !! position info)) as [witness|e0];
      simpl; [|reflexivity].
    rewrite Ht. simpl. discriminate.
Qed.


(** *** The recovery header and the envelope *)

(** X16. For a signature whose header byte is at least 27, the adjustment
    keeps the recovery id (the header minus 27, modulo 4) and moves the
    header into 31 .. 34; it touches no other byte, and adjusting again
    changes nothing. *)
Theorem adjust_recovery_id_header (b : byte) (rest : Bytes) :
  27 <= Z_of_byte b ->
  exists b',
    adjust_recovery_id (b :: rest) = b' :: rest
    /\ Z_of_byte b' = 31 + (Z_of_byte b - 27) mod 4
    /\ 31 <= Z_of_byte b' <= 34
    /\ adjust_recovery_id (b' :: rest) = b' :: rest.
Proof.
  intros H. destruct b;
    first [ exfalso; vm_compute in H; apply H; reflexivity
          | eexists; split; [reflexivity|];
            split; [vm_compute; reflexivity|];
            split; [split; vm_compute; discriminate | vm_compute; reflexivity] ].
Qed.

Lemma five_words {A : Type} (a b c d e rest : list A) :
  length a = 4%nat -> length b = 4%nat -> length c = 4%nat ->
  length d = 4%nat -> length e = 4%nat ->
  take 4 (a ++ b ++ c ++ d ++ e ++ rest) = a
  /\ take 4 (drop 16 (a ++ b ++ c ++ d ++ e ++ rest)) = e
  /\ drop 20 (a ++ b ++ c ++ d ++ e ++ rest) = rest.
Proof.
  intros Ha Hb Hc Hd He.
  destruct a as [|? [|? [|? [|? [|]]]]]; try discriminate Ha.
  destruct b as [|? [|? [|? [|? [|]]]]]; try discriminate Hb.
  destruct c as [|? [|? [|? [|? [|]]]]]; try discriminate Hc.
  destruct d as [|? [|? [|? [|? [|]]]]]; try discriminate Hd.
  destruct e as [|? [|? [|? [|? [|]]]]]; try discriminate He.
  simpl. rewrite drop_0. auto.
Qed.

(** X17. The envelope describes itself: its first field is its own length
    in bytes, its fifth the length of the signature, and the signature is
    what follows the twenty bytes of header. *)
Theorem envelope_layout (signature : Bytes) :
  (forall n, 0 <= n < 2 ^ 32 -> length (numToBytes n 4) = 4%nat) ->
  Z.of_nat (length signature) < 2 ^ 32 - 20 ->
  take 4 (envelope signature)
  = numToBytes (Z.of_nat (length (envelope signature))) 4
  /\ take 4 (drop 16 (envelope signature))
     = numToBytes (Z.of_nat (length signature)) 4
  /\ drop 20 (envelope signature) = signature.
Proof.
  intros Hfour Hfit.
  rewrite (envelope_length signature Hfour Hfit).
  replace (Z.of_nat (5 * 4 + length signature))
    with (5 * 4 + Z.of_nat (length signature)) by lia.
  unfold envelope, bytesConcat. simpl concat. rewrite app_nil_r.
  apply five_words; apply Hfour; lia.
Qed.

(** *** [prepareTransaction] *)

(** X18. A successful [prepareTransaction] returns the object of
    [Transaction.from], now holding what [prepareSighashAllWitness], asked
    for a lock of 85 bytes under the signer's script, makes of what
    [addCellDepsOfKnownScripts] makes of it for [OmniLock]; no other
    object of the store is written. *)
Theorem prepareTransaction_success (txLike : TransactionLike) (w0 w1 : World)
    (tx : loc) (t t1 t2 : Transaction) (script : Script) :
  Transaction_from txLike w0 = (Ok tx, w1) ->
  heap w1 !! tx = Some t ->
  getRecommendedAddressObj = Ok script ->
  addCellDepsOfKnownScripts OmniLock t = Ok t1 ->
  prepareSighashAllWitness script 85 t1 = Ok t2 ->
  prepareTransaction txLike w0
  = (Ok tx,
     {| heap := <[tx := t2]> (heap w1);
        trace := (trace w1 ++ [prepareSighashAllWitness_call script 85])%list |})
  /\ forall other, other <> tx ->
       heap (snd (prepareTransaction txLike w0)) !! other = heap w1 !! other.
Proof.
  intros Hfrom Ht Haddr Hdeps Hprep.
  assert (Hrun : prepareTransaction txLike w0
                 = (Ok tx,
                    {| heap := <[tx := t2]> (heap w1);
                       trace := (trace w1 ++ [prepareSighashAllWitness_call script 85])%list |})).
  { unfold prepareTransaction, bind, liftR, read, write, record, ret.
    rewrite Hfrom, Haddr, Ht, Hdeps. simpl. rewrite Hprep. simpl.
    now rewrite insert_insert_eq. }
  split; [exact Hrun|].
  intros other Hother. rewrite Hrun. simpl. now apply lookup_insert_ne.
Qed.

(** X19. [prepareTransaction] is not all-or-nothing. When the cell deps
    cannot be added it fails with the transaction untouched and the
    placeholder routine never called; when the placeholder routine fails,
    the transaction is left with the cell deps added. *)
Theorem prepareTransaction_failure (txLike : TransactionLike) (w0 w1 : World)
    (tx : loc) (t : Transaction) (script : Script) (e : Thrown) :
  Transaction_from txLike w0 = (Ok tx, w1) ->
  heap w1 !! tx = Some t ->
  getRecommendedAddressObj = Ok script ->
  (addCellDepsOfKnownScripts OmniLock t = Throw e ->
     prepareTransaction txLike w0 = (Throw e, w1))
  /\ (forall t1, addCellDepsOfKnownScripts OmniLock t = Ok t1 ->
      prepareSighashAllWitness script 85 t1 = Throw e ->
      prepareTransaction txLike w0
      = (Throw e,
         {| heap := <[tx := t1]> (heap w1);
            trace := (trace w1 ++ [prepareSighashAllWitness_call script 85])%list |})).
Proof.
  intros Hfrom Ht Haddr.
  unfold prepareTransaction, bind, liftR, read, write, record, ret.
  rewrite Hfrom, Haddr, Ht. split.
  - intros Hdeps. now rewrite Hdeps.
  - intros t1 Hdeps Hprep. rewrite Hdeps. simpl. now rewrite Hprep.
Qed.

(** *** Addresses *)

(** [this.getBtcPublicKey()], abstract in [SignerBtc]; [bytesFrom] of
    [../../bytes]; [sha256] and [ripemd160] of [@noble/hashes];
    [Address.fromKnownScript(this.client, ...)] of [../../address]. *)
Variable HexLike : Type.
Variable Address : Type.
Variable getBtcPublicKey : Result HexLike.
Variable bytesFrom : HexLike -> Bytes.
Variable sha256 : Bytes -> Bytes.
Variable ripemd160 : Bytes -> Bytes.
Variable Address_fromKnownScript : KnownScript -> Bytes -> Result Address.

(** [getAddressObjs()] *)
Definition getAddressObjs : Result (list Address) :=
  publicKey <-? getBtcPublicKey ;;
  let hash := ripemd160 (sha256 (bytesFrom publicKey)) in
  address <-? Address_fromKnownScript OmniLock (x04 :: hash ++ [x00])%list ;;
  Ok [address].

(** X20. [getAddressObjs] asks for one [OmniLock] address, with 22 bytes of
    args: the flag 4, the 20 bytes of RIPEMD-160 over SHA-256 of the public
    key, and a closing 0; what it resolves to is that one address. *)
Theorem getAddressObjs_args (publicKey : HexLike) :
  getBtcPublicKey = Ok publicKey ->
  let hash := ripemd160 (sha256 (bytesFrom publicKey)) in
  length hash = 20%nat ->
  exists args,
    getAddressObjs = (address <-? Address_fromKnownScript OmniLock args ;; Ok [address])
    /\ length args = 22%nat
    /\ args !! 0%nat = Some x04
    /\ take 20 (drop 1 args) = hash
    /\ args !! 21%nat = Some x00
    /\ forall addresses, getAddressObjs = Ok addresses -> length addresses = 1%nat.
Proof.
  intros Hkey hash Hlen. exists (x04 :: hash ++ [x00])%list.
  assert (Hrun : getAddressObjs
                 = (address <-? Address_fromKnownScript OmniLock
                                  (x04 :: hash ++ [x00])%list ;; Ok [address])).
  { unfold getAddressObjs. now rewrite Hkey. }
  split; [exact Hrun|].
  split; [simpl; rewrite length_app, Hlen; reflexivity|].
  split; [reflexivity|].
  split; [simpl; rewrite drop_0; now apply take_app_length'|].
  split.
  - change 21%nat with (S 20). simpl. rewrite lookup_app_r by lia.
    now rewrite Hlen.
  - intros addresses. rewrite Hrun.
    destruct (Address_fromKnownScript OmniLock (x04 :: hash ++ [x00])%list);
      simpl; [|discriminate].
    now intros [= <-].
Qed.

End WithCollaborators.

End SignerBtc.

(** ** Running the signer with scripted collaborators *)

Module SignerDemo.
Import SignerBtc.

Local Open Scope js_scope.

(** Little-endian integers of a fixed width. *)
Fixpoint le_bytes (n : Z) (width : nat) : Bytes :=
  match width with
  | O => []
  | S width' => byte_of_Z n :: le_bytes (n / 256) width'
  end.

Definition le_number (bs : Bytes) : Z :=
  fold_right (fun b acc => Z_of_byte b + 256 * acc) 0 bs.

(** The table layout of [WitnessArgs]: the total size, three offsets, then
    the three fields, an absent field taking no room and a present one
    being its length followed by its bytes. *)
Definition encode_field (field : option Bytes) : Bytes :=
  match field with
  | None => []
  | Some bs => (le_bytes (Z.of_nat (length bs)) 4 ++ bs)%list
  end.

Definition WitnessArgs_toBytes (w : WitnessArgs) : Bytes :=
  let f1 := encode_field (lock w) in
  let f2 := encode_field (inputType w) in
  let f3 := encode_field (outputType w) in
  let o2 := (16 + length f1)%nat in
  let o3 := (o2 + length f2)%nat in
  (le_bytes (Z.of_nat (o3 + length f3)) 4 ++ le_bytes 16 4
   ++ le_bytes (Z.of_nat o2) 4 ++ le_bytes (Z.of_nat o3) 4
   ++ f1 ++ f2 ++ f3)%list.

Definition decode_field (bs : Bytes) : Result (option Bytes) :=
  match bs with
  | [] => Ok None
  | _ =>
      if (Z.to_nat (le_number (take 4 bs)) + 4 =? length bs)%nat
      then Ok (Some (drop 4 bs))
      else Throw (ThrowError "malformed bytes")
  end.

Definition WitnessArgs_fromBytes (raw : option Bytes) : Result WitnessArgs :=
  match raw with
  | None => Throw ThrowTypeError
  | Some bs =>
      let total := Z.to_nat (le_number (take 4 bs)) in
      let o1 := Z.to_nat (le_number (take 4 (drop 4 bs))) in
      let o2 := Z.to_nat (le_number (take 4 (drop 8 bs))) in
      let o3 := Z.to_nat (le_number (take 4 (drop 12 bs))) in
      if ((total =? length bs) && (o1 =? 16) && (o1 <=? o2) && (o2 <=? o3)
          && (o3 <=? total))%nat
      then
        f1 <-? decode_field (take (o2 - o1) (drop o1 bs)) ;;
        f2 <-? decode_field (take (o3 - o2) (drop o2 bs)) ;;
        f3 <-? decode_field (drop o3 bs) ;;
        Ok {| lock := f1; inputType := f2; outputType := f3 |}
      else Throw (ThrowError "malformed WitnessArgs")
  end.

(** Two ways [Transaction.from] can treat a [Transaction] it is handed:
    make a new object with the same fields, or hand the object back. *)
Definition copying (held : loc) : M World loc :=
  fun w => match heap w !! held with
           | Some t =>
               let tx := fresh (dom (heap w)) in
               (Ok tx, {| heap := <[tx := t]> (heap w); trace := trace w |})
           | None => (Throw ThrowTypeError, w)
           end.

Definition sharing (held : loc) : M World loc := fun w => (Ok held, w).

Definition omnilock : Script :=
  {| codeHash := replicate 32 xf3; hashType := HashType_;
     args := (x04 :: replicate 20 xab ++ [x00])%list |}.

(** A signer that controls every input. *)
Definition getSignHashInfo (_ : Script) (t : Transaction) : Result (option SignHashInfo) :=
  match inputs t with
  | [] => Ok None
  | _ => Ok (Some {| message := "0x5d6f"; position := 0 |})
  end.

(** A wallet whose answer stands for the 65 bytes [x1c], [x2a], ... *)
Definition wallet (_ : string) : Result string := Ok "HCoq".
Definition bytesFrom_base64 (_ : string) : Bytes := x1c :: replicate 64 x2a.

Definition placeholder : WitnessArgs :=
  {| lock := Some (replicate 85 x00); inputType := Some [x01; x02]; outputType := None |}.

Definition unsigned : Transaction :=
  {| version := 0; cellDeps := []; headerDeps := [];
     inputs := [{| previousOutput := {| txHash := replicate 32 x11; index := 0 |};
                   since := 0 |}];
     outputs := [{| capacity := 6100000000; output_lock := omnilock;
                    output_type := None |}];
     outputsData := [[]];
     witnesses := [WitnessArgs_toBytes placeholder; [xee]] |}.

Definition foreign : Transaction :=
  {| version := 0; cellDeps := []; headerDeps := []; inputs := [];
     outputs := []; outputsData := []; witnesses := [] |}.

(** The caller holds [unsigned] at 1 and [foreign] at 2. *)
Definition w0 : World :=
  {| heap := <[2%positive := foreign]> (<[1%positive := unsigned]> ∅); trace := [] |}.

Definition signOnlyTransaction (from : loc -> M World loc) : loc -> M World loc :=
  SignerBtc.signOnlyTransaction loc from (Ok omnilock) getSignHashInfo wallet
    bytesFrom_base64 le_bytes WitnessArgs_fromBytes WitnessArgs_toBytes.

Definition prepareTransaction (from : loc -> M World loc) : loc -> M World loc :=
  SignerBtc.prepareTransaction loc from (Ok omnilock)
    (fun _ t => Ok t)
    (fun _ lockLen t =>
       Ok (setWitnessArgsAt WitnessArgs_toBytes 0
             {| lock := Some (replicate lockLen x00); inputType := None;
                outputType := None |} t)).

Definition signature : Bytes := adjust_recovery_id (bytesFrom_base64 "HCoq").

Definition signed : WitnessArgs :=
  {| lock := Some (envelope le_bytes signature);
     inputType := Some [x01; x02]; outputType := None |}.

End SignerDemo.

Example adjusted_first_byte : hd x00 SignerDemo.signature = x20.
Proof. reflexivity. Qed.

Example envelope_header :
  take 20 (SignerBtc.envelope SignerDemo.le_bytes SignerDemo.signature)
  = [x55; x00; x00; x00; x10; x00; x00; x00; x55; x00; x00; x00;
     x55; x00; x00; x00; x41; x00; x00; x00].
Proof. reflexivity. Qed.

Example placeholder_decodes :
  SignerDemo.WitnessArgs_fromBytes
    (Some (SignerDemo.WitnessArgs_toBytes SignerDemo.placeholder))
  = Ok SignerDemo.placeholder.
Proof. vm_compute. reflexivity. Qed.

Example signing_copy :
  fst (SignerDemo.signOnlyTransaction SignerDemo.copying 1%positive SignerDemo.w0)
  = Ok 3%positive.
Proof. vm_compute. reflexivity. Qed.

(** When [Transaction.from] hands the caller's object back, signing is
    done in place, on that object. *)
Example signing_shared :
  fst (SignerDemo.signOnlyTransaction SignerDemo.sharing 1%positive SignerDemo.w0)
  = Ok 1%positive
  /\ SignerBtc.heap (snd (SignerDemo.signOnlyTransaction SignerDemo.sharing 1%positive SignerDemo.w0))
     !! 1%positive
     = Some (SignerBtc.setWitnessArgsAt SignerDemo.WitnessArgs_toBytes 0
               SignerDemo.signed SignerDemo.unsigned).
Proof. vm_compute. split; reflexivity. Qed.

Lemma signOnlyTransaction_noop_witness :
  SignerDemo.signOnlyTransaction SignerDemo.sharing 2%positive SignerDemo.w0
  = (Ok 2%positive, SignerDemo.w0)
  /\ SignerBtc.heap (snd (SignerDemo.signOnlyTransaction SignerDemo.sharing 2%positive SignerDemo.w0))
     !! 2%positive = Some SignerDemo.foreign
  /\ SignerBtc.trace (snd (SignerDemo.signOnlyTransaction SignerDemo.sharing 2%positive SignerDemo.w0))
     = [].
Proof.
  apply (SignerBtc.signOnlyTransaction_noop SignerBtc.loc SignerDemo.sharing
           (Ok SignerDemo.omnilock) SignerDemo.getSignHashInfo SignerDemo.wallet
           SignerDemo.bytesFrom_base64 SignerDemo.le_bytes
           SignerDemo.WitnessArgs_fromBytes SignerDemo.WitnessArgs_toBytes
           2%positive SignerDemo.w0 SignerDemo.w0 2%positive SignerDemo.foreign
           SignerDemo.omnilock); reflexivity.
Defined.



Lemma signOnlyTransaction_in_place_witness :
  exists (t' : SignerBtc.Transaction) (w' : SignerBtc.World),
    SignerDemo.signOnlyTransaction SignerDemo.sharing 1%positive SignerDemo.w0
    = (Ok 1%positive, w')
    /\ SignerBtc.heap w' !! 1%positive = Some t'
    /\ SignerBtc.witnesses t' !! 0%nat
       = Some (SignerDemo.WitnessArgs_toBytes SignerDemo.signed)
    /\ t' <> SignerDemo.unsigned
    /\ SignerBtc.heap w' !! 1%positive <> SignerBtc.heap SignerDemo.w0 !! 1%positive.
Proof.
  apply (SignerBtc.signOnlyTransaction_in_place SignerBtc.loc SignerDemo.sharing
           (Ok SignerDemo.omnilock) SignerDemo.getSignHashInfo SignerDemo.wallet
           SignerDemo.bytesFrom_base64 SignerDemo.le_bytes
           SignerDemo.WitnessArgs_fromBytes SignerDemo.WitnessArgs_toBytes
           1%positive SignerDemo.w0 1%positive SignerDemo.unsigned SignerDemo.omnilock
           {| SignerBtc.message := "0x5d6f"; SignerBtc.position := 0 |}
           "HCoq" (SignerDemo.WitnessArgs_toBytes SignerDemo.placeholder)
           SignerDemo.placeholder);
    try reflexivity; try (vm_compute; reflexivity).
  vm_compute. discriminate.
Defined.

Lemma signOnlyTransaction_frame_witness :
  exists (t' : SignerBtc.Transaction) (w' : SignerBtc.World),
    SignerDemo.signOnlyTransaction SignerDemo.copying 1%positive SignerDemo.w0
    = (Ok 3%positive, w')
    /\ SignerBtc.heap w' !! 3%positive = Some t'
    /\ SignerBtc.inputs t' = SignerBtc.inputs SignerDemo.unsigned
    /\ SignerBtc.outputs t' = SignerBtc.outputs SignerDemo.unsigned
    /\ SignerBtc.witnesses t' !! 1%nat = Some [xee]
    /\ SignerDemo.WitnessArgs_fromBytes (SignerBtc.witnesses t' !! 0%nat)
       = Ok SignerDemo.signed
    /\ SignerBtc.heap w' !! 1%positive = Some SignerDemo.unsigned
    /\ SignerBtc.heap w' !! 2%positive = Some SignerDemo.foreign.
Proof.
  destruct (SignerBtc.signOnlyTransaction_frame SignerBtc.loc SignerDemo.copying
              (Ok SignerDemo.omnilock) SignerDemo.getSignHashInfo SignerDemo.wallet
              SignerDemo.bytesFrom_base64 SignerDemo.le_bytes
              SignerDemo.WitnessArgs_fromBytes SignerDemo.WitnessArgs_toBytes
              1%positive SignerDemo.w0
              {| SignerBtc.heap := <[3%positive := SignerDemo.unsigned]>
                                     (SignerBtc.heap SignerDemo.w0);
                 SignerBtc.trace := [] |}
              3%positive SignerDemo.unsigned SignerDemo.omnilock
              {| SignerBtc.message := "0x5d6f"; SignerBtc.position := 0 |}
              "HCoq" (SignerDemo.WitnessArgs_toBytes SignerDemo.placeholder)
              SignerDemo.placeholder)
    as (t' & w' & Hrun & Hheap & _ & _ & _ & Hin & Hout & _ & _ & Hothers & Hslot
        & _ & _ & _ & Hheld);
    try (vm_compute; reflexivity).
  exists t', w'.
  split; [exact Hrun|]. split; [exact Hheap|].
  split; [exact Hin|]. split; [exact Hout|].
  split; [rewrite Hothers by discriminate; reflexivity|].
  split; [exact Hslot|].
  split; apply Hheld; try reflexivity.
  - intros held t0 Hlookup.
    destruct (decide (held = 3%positive)) as [->|Hne]; [discriminate|].
    simpl. now rewrite lookup_insert_ne.
  - intros held t0 Hlookup.
    destruct (decide (held = 3%positive)) as [->|Hne]; [discriminate|].
    simpl. now rewrite lookup_insert_ne.
Defined.

(** ** More scripted runs of the client *)

Module ClientCases.
Import ClientJsonRpc.

(** A node that cannot be reached before the timer fires. *)
Definition silent_node (_ : string) (_ : Z) (_ : JsonRpcPayload) : Exchange :=
  FetchRejected (Rejected "AbortError").

(** A node whose every body is [null]. *)
Definition null_node (_ : string) (_ : Z) (_ : JsonRpcPayload) : Exchange :=
  Responded JNull.

(** A node that echoes the id and reports a capacity. *)
Definition capacity_node (_ : string) (_ : Z) (p : JsonRpcPayload) : Exchange :=
  Responded (JObj [("jsonrpc", JStr "2.0"); ("id", JNum (id p));
                   ("result", JObj [("capacity", JStr "0x174876e800");
                                    ("block_number", JStr "0x10")])]).

Definition hexFrom (v : Js) : Result Js :=
  match v with
  | JStr s => Ok (JStr s)
  | _ => Throw (ThrowError "Invalid bytes")
  end.

Definition numFrom (v : Js) : Result Js :=
  match v with
  | JStr s => Ok (JNum (HexString.to_Z s))
  | JNum n => Ok (JNum n)
  | _ => Throw (ThrowError "Invalid number")
  end.

(** A transformer that rejects, three turns of the event loop later. *)
Definition slow_refusal (_ : Js) : Promise Js :=
  {| settles := 3; outcome := Throw (ThrowError "lookup failed") |}.

Definition page (found : list Js) : list (string * Js) :=
  [("jsonrpc", JStr "2.0"); ("id", JNum 5000);
   ("result", JObj [("objects", JArr found); ("last_cursor", JStr "0x")])].

Definition call (method : string) (params : list Js) : JsonRpcPayload :=
  {| id := 5000; method := method; params := params; jsonrpc := "2.0" |}.

End ClientCases.

Lemma send_transport_failure_witness :
  ClientJsonRpc.send ClientCases.silent_node pretty ClientDemo.client ClientDemo.payload3 []
  = (Throw (Rejected "AbortError"), [("https://testnet.ckb.dev/", ClientDemo.payload3)]).
Proof.
  apply (ClientJsonRpc.send_transport_failure ClientCases.silent_node pretty ClientDemo.client
           ClientDemo.payload3 [] (Rejected "AbortError")).
  left. reflexivity.
Defined.

Lemma send_null_body_witness :
  ClientJsonRpc.send ClientCases.null_node pretty ClientDemo.client ClientDemo.payload3 []
  = (Throw ThrowTypeError, [("https://testnet.ckb.dev/", ClientDemo.payload3)]).
Proof.
  apply (ClientJsonRpc.send_null_body ClientCases.null_node pretty ClientDemo.client
           ClientDemo.payload3 []).
  reflexivity.
Defined.

Lemma send_Ok_inv_witness :
  exists res res_error,
    ClientCases.capacity_node "https://testnet.ckb.dev/" 30000 ClientDemo.payload3
    = ClientJsonRpc.Responded res
    /\ get res "id" = Ok (JNum 3)
    /\ get res "error" = Ok res_error
    /\ truthy res_error = false
    /\ get res "result"
       = Ok (JObj [("capacity", JStr "0x174876e800"); ("block_number", JStr "0x10")]).
Proof.
  apply (ClientJsonRpc.send_Ok_inv ClientCases.capacity_node pretty ClientDemo.client
           ClientDemo.payload3 []).
  reflexivity.
Defined.

Lemma buildSender_transformer_failure_witness :
  ClientJsonRpc.buildSender ClientDemo.echo_node pretty ClientDemo.client "get_transaction"
    [Some ClientCases.slow_refusal; Some (ClientJsonRpc.sync ClientCases.hexFrom)]
    (Some (ClientJsonRpc.sync Ok)) (1 # 2) [JNum 5; JNum 6] []
  = (Throw (ThrowError "Invalid bytes"), []).
Proof.
  apply (ClientJsonRpc.buildSender_transformer_failure ClientDemo.echo_node pretty
           ClientDemo.client "get_transaction"
           [Some ClientCases.slow_refusal; Some (ClientJsonRpc.sync ClientCases.hexFrom)]
           (Some (ClientJsonRpc.sync Ok))
           (1 # 2) [JNum 5; JNum 6] [] 1%nat (ClientJsonRpc.sync ClientCases.hexFrom)
           (ThrowError "Invalid bytes")).
  - reflexivity.
  - reflexivity.
  - intros [|[|j]] t' e' Ht' Hne Hrej; try discriminate; try contradiction.
    injection Ht' as <-. left. simpl. lia.
Defined.

Lemma buildSender_extra_args_witness :
  ClientJsonRpc.params
    (ClientCases.call "get_cells" [JObj []; JStr "desc"; JStr "0x64"; JStr "0xfeed"])
  !! 3%nat = Some (JStr "0xfeed").
Proof.
  apply (ClientJsonRpc.buildSender_extra_args ClientDemo.echo_node pretty ClientDemo.client
           "get_cells"
           [Some (ClientJsonRpc.sync Ok);
            Some (ClientJsonRpc.sync (fun order => Ok (nullish order (JStr "asc"))));
            Some (ClientJsonRpc.sync
                    (fun limit => bindR (ClientDemo.numToHex (nullish limit (JNum 10)))
                                    (fun h => Ok (JStr h))))]
           (Some (ClientJsonRpc.sync Ok)) (1 # 2)
           [JObj []; JStr "desc"; JNum 100; JStr "0xfeed"] []
           "https://testnet.ckb.dev/"
           (ClientCases.call "get_cells" [JObj []; JStr "desc"; JStr "0x64"; JStr "0xfeed"])).
  - reflexivity.
  - simpl. lia.
Defined.

Lemma buildSender_id_range_witness :
  0 <= ClientJsonRpc.id ClientDemo.default_page <= 10000.
Proof.
  apply (ClientJsonRpc.buildSender_id_range ClientDemo.echo_node pretty ClientDemo.client
           "get_cells"
           [Some (ClientJsonRpc.sync Ok);
            Some (ClientJsonRpc.sync (fun order => Ok (nullish order (JStr "asc"))));
            Some (ClientJsonRpc.sync
                    (fun limit => bindR (ClientDemo.numToHex (nullish limit (JNum 10)))
                                    (fun h => Ok (JStr h))))]
           (Some (ClientJsonRpc.sync Ok)) (1 # 2) [JObj [("script_type", JStr "lock")]] []
           "https://testnet.ckb.dev/" ClientDemo.default_page).
  - discriminate.
  - reflexivity.
  - reflexivity.
Defined.

Lemma sendTransactionNoCache_params_witness :
  ClientJsonRpc.method
    (ClientCases.call "send_transaction" [JObj [("version", JStr "0x0")]; JStr "passthrough"])
  = "send_transaction"
  /\ exists t, Ok (arg [JObj [("version", JStr "0x0")]; JStr "passthrough"] 0) = Ok t
               /\ ClientJsonRpc.params
                    (ClientCases.call "send_transaction"
                       [JObj [("version", JStr "0x0")]; JStr "passthrough"])
                  = t :: drop 1 [JObj [("version", JStr "0x0")]; JStr "passthrough"].
Proof.
  apply (ClientJsonRpc.sendTransactionNoCache_params ClientDemo.echo_node pretty Ok
           ClientCases.hexFrom ClientDemo.client (1 # 2)
           [JObj [("version", JStr "0x0")]; JStr "passthrough"] []
           "https://testnet.ckb.dev/").
  reflexivity.
Defined.

Lemma getTransactionNoCache_answer_witness :
  ClientJsonRpc.getTransactionNoCache ClientDemo.echo_node pretty Ok ClientCases.hexFrom
    ClientDemo.client (1 # 2) [JStr "0x5d6f"] []
  = (Ok (JObj [("objects", JArr []); ("last_cursor", JStr "0x")]),
     [("https://testnet.ckb.dev/", ClientCases.call "get_transaction" [JStr "0x5d6f"])]).
Proof.
  apply (ClientJsonRpc.getTransactionNoCache_answer ClientDemo.echo_node pretty Ok
           ClientCases.hexFrom ClientDemo.client (1 # 2) (JStr "0x5d6f") (JStr "0x5d6f")
           [] (ClientCases.page [])); reflexivity.
Defined.

Lemma getCellsCapacity_answer_witness :
  ClientJsonRpc.getCellsCapacity ClientCases.capacity_node pretty Ok ClientCases.numFrom
    ClientDemo.client (1 # 2) [JObj [("script_type", JStr "lock")]] []
  = (Ok (JNum 100000000000),
     [("https://testnet.ckb.dev/",
       ClientCases.call "get_cells_capacity" [JObj [("script_type", JStr "lock")]])]).
Proof.
  refine (proj1 (ClientJsonRpc.getCellsCapacity_answer ClientCases.capacity_node pretty Ok
                   ClientCases.numFrom ClientDemo.client (1 # 2)
                   (JObj [("script_type", JStr "lock")])
                   (JObj [("script_type", JStr "lock")]) []
                   [("jsonrpc", JStr "2.0"); ("id", JNum 5000);
                    ("result", JObj [("capacity", JStr "0x174876e800");
                                     ("block_number", JStr "0x10")])]
                   _ _ _ _)
                [("capacity", JStr "0x174876e800"); ("block_number", JStr "0x10")] _);
    reflexivity.
Defined.

Lemma findCellsPagedNoCache_cursor_witness :
  (exists k, Ok (arg [JObj []; JStr "desc"; JNum 100; JStr "0xfeed"] 0) = Ok k
             /\ ClientJsonRpc.params
                  (ClientCases.call "get_cells"
                     [JObj []; JStr "desc"; JStr "0x64"; JStr "0xfeed"]) !! 0%nat = Some k)
  /\ ClientJsonRpc.params
       (ClientCases.call "get_cells" [JObj []; JStr "desc"; JStr "0x64"; JStr "0xfeed"])
     !! 3%nat = [JObj []; JStr "desc"; JNum 100; JStr "0xfeed"] !! 3%nat
  /\ length (ClientJsonRpc.params
               (ClientCases.call "get_cells"
                  [JObj []; JStr "desc"; JStr "0x64"; JStr "0xfeed"]))
     = (length [JObj []; JStr "desc"; JNum 100; JStr "0xfeed"] `max` 3)%nat.
Proof.
  apply (ClientJsonRpc.findCellsPagedNoCache_cursor ClientDemo.echo_node pretty Ok Ok
           ClientDemo.numToHex ClientDemo.client (1 # 2)
           [JObj []; JStr "desc"; JNum 100; JStr "0xfeed"] []
           "https://testnet.ckb.dev/").
  reflexivity.
Defined.

Lemma findCellsPagedNoCache_null_witness :
  ClientJsonRpc.params (ClientCases.call "get_cells" [JObj []; JStr "asc"; JStr "0xa"])
  !! 1%nat = Some (JStr "asc")
  /\ exists h, ClientDemo.numToHex (JNum 10) = Ok h
               /\ ClientJsonRpc.params
                    (ClientCases.call "get_cells" [JObj []; JStr "asc"; JStr "0xa"])
                  !! 2%nat = Some (JStr h).
Proof.
  pose proof (ClientJsonRpc.findCellsPagedNoCache_null ClientDemo.echo_node pretty Ok Ok
                ClientDemo.numToHex ClientDemo.client (1 # 2)
                [JObj []; JNull; JNull] [] "https://testnet.ckb.dev/"
                (ClientCases.call "get_cells" [JObj []; JStr "asc"; JStr "0xa"]) eq_refl)
    as [Horder Hlimit].
  split; [apply Horder | apply Hlimit]; reflexivity.
Defined.

Lemma findCellsPagedNoCache_rejects_early_witness :
  ClientDemo.get_cells ClientDemo.echo_node (1 # 2) [JObj []; JStr "asc"; JStr "ten"] []
  = (Throw (ThrowError "Invalid number"), []).
Proof.
  apply (proj2 (ClientJsonRpc.findCellsPagedNoCache_rejects_early ClientDemo.echo_node pretty
                  Ok Ok ClientDemo.numToHex ClientDemo.client (1 # 2)
                  [JObj []; JStr "asc"; JStr "ten"] [] (ThrowError "Invalid number"))).
  - now eexists.
  - reflexivity.
Defined.

Lemma ckbHash_chunking_witness :
  Hasher.Toy.hash [[x61]; [x62; x63]; []] = Hasher.Toy.hash [[x61; x62]; [x63]].
Proof.
  apply (Hasher.ckbHash_chunking Bytes Hasher.Toy.init Hasher.Toy.absorb Hasher.Toy.show
           Bytes (fun d => d) list_byte_of_string "ckb-default-hash"
           [[x61]; [x62; x63]; []] [[x61; x62]; [x63]]).
  - exact Hasher.Toy.toy_streaming.
  - discriminate.
  - discriminate.
  - reflexivity.
Defined.

(** ** More scripted runs of the signer *)

Module SignerCases.
Import SignerBtc.

(** A wallet whose user declines. *)
Definition declining (_ : string) : Result string := Throw (Rejected "User rejected").

(** A transaction with an input of the signer's and no witness at all. *)
Definition bare : Transaction :=
  {| version := 0; cellDeps := []; headerDeps := [];
     inputs := inputs SignerDemo.unsigned;
     outputs := outputs SignerDemo.unsigned;
     outputsData := [[]];
     witnesses := [] |}.

Definition w_bare : World :=
  {| heap := <[1%positive := bare]> ∅; trace := [] |}.

Definition signOnlyTransaction (wallet : string -> Result string) : loc -> M World loc :=
  SignerBtc.signOnlyTransaction loc SignerDemo.sharing (Ok SignerDemo.omnilock)
    SignerDemo.getSignHashInfo wallet SignerDemo.bytesFrom_base64 SignerDemo.le_bytes
    SignerDemo.WitnessArgs_fromBytes SignerDemo.WitnessArgs_toBytes.

Definition with_deps (t : Transaction) : Transaction :=
  {| version := version t;
     cellDeps := [{| outPoint := {| txHash := replicate 32 xec; index := 0 |};
                     depType := DepGroup |}];
     headerDeps := headerDeps t; inputs := inputs t; outputs := outputs t;
     outputsData := outputsData t; witnesses := witnesses t |}.

Definition reserve (_ : Script) (lockLen : nat) (t : Transaction) : Result Transaction :=
  Ok (setWitnessArgsAt SignerDemo.WitnessArgs_toBytes 0
        {| lock := Some (replicate lockLen x00); inputType := None;
           outputType := None |} t).

Definition prepareTransaction
    (deps : KnownScript -> Transaction -> Result Transaction)
    (placeholder : Script -> nat -> Transaction -> Result Transaction)
  : loc -> M World loc :=
  SignerBtc.prepareTransaction loc SignerDemo.sharing (Ok SignerDemo.omnilock)
    deps placeholder.

(** Stand-ins for the two digests: the first keeps its input, the second
    cuts or pads it to twenty bytes. *)
Definition sha256 (bs : Bytes) : Bytes := bs.
Definition ripemd160 (bs : Bytes) : Bytes := take 20 (bs ++ replicate 20 x00)%list.

Definition publicKey : Bytes := x02 :: replicate 32 x7c.

Definition fromKnownScript (_ : KnownScript) (args : Bytes) : Result Script :=
  Ok {| codeHash := replicate 32 xf3; hashType := HashType_; args := args |}.

End SignerCases.

Lemma signOnlyTransaction_failure_frame_witness :
  SignerBtc.heap (snd (SignerCases.signOnlyTransaction SignerCases.declining
                         1%positive SignerDemo.w0))
  = SignerBtc.heap SignerDemo.w0.
Proof.
  apply (proj2 (SignerBtc.signOnlyTransaction_failure_frame SignerBtc.loc
                  SignerDemo.sharing (Ok SignerDemo.omnilock) SignerDemo.getSignHashInfo
                  SignerCases.declining SignerDemo.bytesFrom_base64 SignerDemo.le_bytes
                  SignerDemo.WitnessArgs_fromBytes SignerDemo.WitnessArgs_toBytes
                  1%positive SignerDemo.w0)
          1%positive SignerDemo.w0 (Rejected "User rejected")); reflexivity.
Defined.


Lemma adjust_recovery_id_header_witness :
  exists b',
    SignerBtc.adjust_recovery_id (x1c :: replicate 64 x2a) = b' :: replicate 64 x2a
    /\ Z_of_byte b' = 31 + (Z_of_byte x1c - 27) mod 4
    /\ 31 <= Z_of_byte b' <= 34
    /\ SignerBtc.adjust_recovery_id (b' :: replicate 64 x2a) = b' :: replicate 64 x2a.
Proof.
  apply (SignerBtc.adjust_recovery_id_header x1c (replicate 64 x2a)).
  vm_compute. discriminate.
Defined.

Lemma envelope_layout_witness :
  take 4 (SignerBtc.envelope SignerDemo.le_bytes SignerDemo.signature)
  = SignerDemo.le_bytes
      (Z.of_nat (length (SignerBtc.envelope SignerDemo.le_bytes SignerDemo.signature))) 4
  /\ take 4 (drop 16 (SignerBtc.envelope SignerDemo.le_bytes SignerDemo.signature))
     = SignerDemo.le_bytes (Z.of_nat (length SignerDemo.signature)) 4
  /\ drop 20 (SignerBtc.envelope SignerDemo.le_bytes SignerDemo.signature)
     = SignerDemo.signature.
Proof.
  apply (SignerBtc.envelope_layout SignerDemo.le_bytes SignerDemo.signature).
  - intros n _. reflexivity.
  - vm_compute. reflexivity.
Defined.

Lemma prepareTransaction_success_witness :
  SignerCases.prepareTransaction (fun _ t => Ok (SignerCases.with_deps t))
    SignerCases.reserve 1%positive SignerDemo.w0
  = (Ok 1%positive,
     {| SignerBtc.heap :=
          <[1%positive :=
              SignerBtc.setWitnessArgsAt SignerDemo.WitnessArgs_toBytes 0
                {| SignerBtc.lock := Some (replicate 85 x00);
                   SignerBtc.inputType := None; SignerBtc.outputType := None |}
                (SignerCases.with_deps SignerDemo.unsigned)]>
            (SignerBtc.heap SignerDemo.w0);
        SignerBtc.trace := [SignerBtc.prepareSighashAllWitness_call SignerDemo.omnilock 85] |}).
Proof.
  refine (proj1 (SignerBtc.prepareTransaction_success SignerBtc.loc SignerDemo.sharing
                   (Ok SignerDemo.omnilock) (fun _ t => Ok (SignerCases.with_deps t))
                   SignerCases.reserve 1%positive SignerDemo.w0 SignerDemo.w0 1%positive
                   SignerDemo.unsigned (SignerCases.with_deps SignerDemo.unsigned) _
                   SignerDemo.omnilock _ _ _ _ _)); reflexivity.
Defined.

Lemma prepareTransaction_failure_witness :
  SignerCases.prepareTransaction (fun _ t => Ok (SignerCases.with_deps t))
    (fun _ _ _ => Throw (ThrowError "no input of this lock")) 1%positive SignerDemo.w0
  = (Throw (ThrowError "no input of this lock"),
     {| SignerBtc.heap :=
          <[1%positive := SignerCases.with_deps SignerDemo.unsigned]>
            (SignerBtc.heap SignerDemo.w0);
        SignerBtc.trace := [SignerBtc.prepareSighashAllWitness_call SignerDemo.omnilock 85] |}).
Proof.
  refine (proj2 (SignerBtc.prepareTransaction_failure SignerBtc.loc SignerDemo.sharing
                   (Ok SignerDemo.omnilock) (fun _ t => Ok (SignerCases.with_deps t))
                   (fun _ _ _ => Throw (ThrowError "no input of this lock"))
                   1%positive SignerDemo.w0 SignerDemo.w0 1%positive SignerDemo.unsigned
                   SignerDemo.omnilock (ThrowError "no input of this lock") _ _ _)
                (SignerCases.with_deps SignerDemo.unsigned) _ _); reflexivity.
Defined.

Lemma getAddressObjs_args_witness :
  exists args,
    SignerBtc.getAddressObjs Bytes SignerBtc.Script (Ok SignerCases.publicKey)
      (fun d => d) SignerCases.sha256 SignerCases.ripemd160 SignerCases.fromKnownScript
    = bindR (SignerCases.fromKnownScript SignerBtc.OmniLock args) (fun a => Ok [a])
    /\ length args = 22%nat
    /\ args !! 0%nat = Some x04
    /\ take 20 (drop 1 args) = SignerCases.ripemd160 (SignerCases.sha256 SignerCases.publicKey)
    /\ args !! 21%nat = Some x00
    /\ forall addresses,
         SignerBtc.getAddressObjs Bytes SignerBtc.Script (Ok SignerCases.publicKey)
           (fun d => d) SignerCases.sha256 SignerCases.ripemd160
           SignerCases.fromKnownScript = Ok addresses ->
         length addresses = 1%nat.
Proof.
  apply (SignerBtc.getAddressObjs_args Bytes SignerBtc.Script (Ok SignerCases.publicKey)
           (fun d => d) SignerCases.sha256 SignerCases.ripemd160
           SignerCases.fromKnownScript SignerCases.publicKey); reflexivity.
Defined.
